(** * Budger voice assistant: the retrieval-augmented conversation engine

    A shallow embedding of [app.py] (class [OptimizedRAGSystem] and the
    routes that use it) together with the properties its specification
    states about the session store, the prompt assembler, the response
    streamer and the error paths.

    Modelling conventions.
    - A Python [str] is a [string]; its characters are the code points
      U+0000..U+00FF.
    - The dictionary [conversation_histories] maps a session id to a
      reference to a list object; list objects live in a store of their
      own, so that [history.append] is seen through every alias.
    - The embedding layer, the vector index, the language model, the PDF
      loader, the text splitter and the clock are collaborators: they are
      fields of an environment record, and every call to one of them may
      raise.
    - A coroutine is run from its call to its return without
      interleaving; an async generator is a machine that is resumed one
      [__anext__] at a time.
    - Logging and printing have no effect on any value and are left out.
    - The SQLite file of the account routes is two lists of rows; the
      engine decides the timestamps and which matching row a query yields
      first.  Only [sqlite3.IntegrityError] is modelled as a failure of a
      statement. *)

From Stdlib Require Import String Ascii ZArith List Lia.
From stdpp Require Import gmap strings list fin_maps pretty.

Local Open Scope string_scope.
Local Open Scope list_scope.

(** ** Python built-ins used by the code *)

Module Py.

Definition nl : string := String "010" EmptyString.

(** [str.isspace] on one character of the range U+0000..U+00FF: the
    characters [str.split()] and [str.strip()] treat as white space. *)
Definition isspace (c : ascii) : bool :=
  let n := nat_of_ascii c in
  (((9 <=? n) && (n <=? 13)) || ((28 <=? n) && (n <=? 32))
   || (n =? 133) || (n =? 160))%nat.

Definition snoc (s : string) (c : ascii) : string :=
  s +:+ String c EmptyString.

(** [s.split()]: maximal runs of characters that are not white space.
    [cur] is the word being read. *)
Fixpoint split_from (cur : string) (s : string) : list string :=
  match s with
  | EmptyString =>
      match cur with EmptyString => [] | _ => [cur] end
  | String c rest =>
      if isspace c then
        match cur with
        | EmptyString => split_from EmptyString rest
        | _ => cur :: split_from EmptyString rest
        end
      else split_from (snoc cur c) rest
  end.

Definition split (s : string) : list string := split_from EmptyString s.

Fixpoint lstrip (s : string) : string :=
  match s with
  | EmptyString => EmptyString
  | String c rest => if isspace c then lstrip rest else s
  end.

Fixpoint rstrip (s : string) : string :=
  match s with
  | EmptyString => EmptyString
  | String c rest =>
      match rstrip rest with
      | EmptyString => if isspace c then EmptyString else String c EmptyString
      | r => String c r
      end
  end.

(** [s.strip()] *)
Definition strip (s : string) : string := rstrip (lstrip s).

(** [sep.join(parts)] *)
Fixpoint join (sep : string) (parts : list string) : string :=
  match parts with
  | [] => EmptyString
  | [p] => p
  | p :: ps => p +:+ sep +:+ join sep ps
  end.

(** [l[-n:]] for a positive literal [n]: the last [n] items, or all of
    [l] when it is shorter. *)
Definition last_n {A} (n : nat) (l : list A) : list A :=
  drop (length l - n) l.

(** [s.endswith(suffix)] *)
Definition endswith (s suffix : string) : bool :=
  let n := String.length s in
  let k := String.length suffix in
  (k <=? n)%nat && String.eqb (String.substring (n - k) k s) suffix.

(** [l[i:i + n]] for [i] in [range(0, len(l), n)], in order.  The loop
    runs at most [len(l)] times when [n] is positive. *)
Fixpoint batches_fuel {A} (fuel n : nat) (l : list A) : list (list A) :=
  match fuel with
  | 0 => []
  | S fuel' =>
      match l with
      | [] => []
      | _ => take n l :: batches_fuel fuel' n (drop n l)
      end
  end.

Definition batches {A} (n : nat) (l : list A) : list (list A) :=
  batches_fuel (length l) n l.

End Py.

(** ** Data *)

(** An entry of a history list: the dict with the keys ["user"],
    ["assistant"] and ["timestamp"]. *)
Record Exchange := mkExchange {
  user : string;
  assistant : string;
  timestamp : string
}.

(** A value of a document's metadata dict, and [str()] of it as an
    f-string renders it. *)
Inductive MetaVal :=
| MStr (s : string)
| MInt (z : Z).

Definition py_str (v : MetaVal) : string :=
  match v with
  | MStr s => s
  | MInt z => pretty z
  end.

(** A langchain [Document]. *)
Record Document := mkDocument {
  page_content : string;
  metadata : gmap string MetaVal
}.

(** Exceptions.  All of them are instances of Python's [Exception], so an
    [except Exception] clause catches each one. *)
Inductive exn :=
| AttributeError (msg : string)
| KeyError (key : string)
| OtherError (msg : string).

Inductive Result (A : Type) :=
| Ok (a : A)
| Raise (e : exn).
Arguments Ok {A} a.
Arguments Raise {A} e.

(** References to list objects. *)
Definition loc := nat.

(** Which loader class [add_documents_async] instantiates. *)
Inductive Loader :=
| PyPDFLoader
| DirectoryLoader.

(** The state of the process: the fields of [rag_system] that change, the
    module-level [user_sessions], a count of clock readings, and a record
    of the calls made to the collaborators. *)
Record World := mkWorld {
  conversation_histories : gmap string loc;
  lists : gmap loc (list Exchange);
  user_sessions : gmap string unit;
  ticks : nat;
  prompts_sent : list string;
  paths_loaded : list (Loader * string);
  batches_added : list (list Document)
}.

(** The collaborators of one call.  [time_time] and [now_isoformat] are
    indexed by the number of clock readings taken so far; a time is a whole
    number of clock units.  [retriever] is [None] exactly when
    [self.vectorstore] is.  [split_documents] is the
    [RecursiveCharacterTextSplitter] built with chunk size 800, overlap 100
    and the separators the code lists. *)
Record Env := mkEnv {
  time_time : nat -> Z;
  now_isoformat : nat -> string;
  retriever : option (string -> Result (list Document));
  llm_ainvoke : string -> Result string;
  loader_load : Loader -> string -> Result (list Document);
  split_documents : list Document -> list Document;
  vectorstore_add_documents : list Document -> Result unit;
  vectorstore_persist : Result unit
}.

(** ** Computations that read and write the world and may raise *)

Definition M (A : Type) : Type := World -> Result A * World.

Definition ret {A} (a : A) : M A := fun w => (Ok a, w).

Definition bind {A B} (c : M A) (k : A -> M B) : M B :=
  fun w =>
    match c w with
    | (Ok a, w') => k a w'
    | (Raise e, w') => (Raise e, w')
    end.

Definition raise {A} (e : exn) : M A := fun w => (Raise e, w).

(** [try: body  except Exception as e: handler(e)] *)
Definition try_except {A} (body : M A) (handler : exn -> M A) : M A :=
  fun w =>
    match body w with
    | (Ok a, w') => (Ok a, w')
    | (Raise e, w') => handler e w'
    end.

Definition lift_result {A} (r : Result A) : M A := fun w => (r, w).

Notation "'let*' x ':=' c 'in' k" := (bind c (fun x => k))
  (at level 10, x pattern, c at level 100, k at level 200).
Notation "c ';;' k" := (bind c (fun _ => k))
  (at level 100, k at level 200, right associativity).

(** *** Primitive operations *)

Definition tick (w : World) : World :=
  mkWorld (conversation_histories w) (lists w) (user_sessions w)
          (S (ticks w)) (prompts_sent w) (paths_loaded w) (batches_added w).

Definition set_histories (d : gmap string loc) (w : World) : World :=
  mkWorld d (lists w) (user_sessions w)
          (ticks w) (prompts_sent w) (paths_loaded w) (batches_added w).

Definition set_lists (h : gmap loc (list Exchange)) (w : World) : World :=
  mkWorld (conversation_histories w) h (user_sessions w)
          (ticks w) (prompts_sent w) (paths_loaded w) (batches_added w).

Definition set_user_sessions (u : gmap string unit) (w : World) : World :=
  mkWorld (conversation_histories w) (lists w) u
          (ticks w) (prompts_sent w) (paths_loaded w) (batches_added w).

Definition log_prompt (p : string) (w : World) : World :=
  mkWorld (conversation_histories w) (lists w) (user_sessions w)
          (ticks w) (prompts_sent w ++ [p]) (paths_loaded w) (batches_added w).

Definition log_load (k : Loader) (p : string) (w : World) : World :=
  mkWorld (conversation_histories w) (lists w) (user_sessions w)
          (ticks w) (prompts_sent w) (paths_loaded w ++ [(k, p)])
          (batches_added w).

Definition log_batch (b : list Document) (w : World) : World :=
  mkWorld (conversation_histories w) (lists w) (user_sessions w)
          (ticks w) (prompts_sent w) (paths_loaded w) (batches_added w ++ [b]).

(** The items of the list object at [l].  A reference the store does not
    hold reads as the empty list; the code makes no such reference, since
    every reference it keeps comes from [new_list]. *)
Definition deref (w : World) (l : loc) : list Exchange :=
  default [] (lists w !! l).

(** [[]]: a new, empty list object. *)
Definition new_list (items : list Exchange) : M loc :=
  fun w =>
    let l := fresh (dom (lists w)) in
    (Ok l, set_lists (<[l := items]> (lists w)) w).

(** [lst.append(x)], in place. *)
Definition list_append (l : loc) (x : Exchange) : M unit :=
  fun w => (Ok tt, set_lists (<[l := deref w l ++ [x]]> (lists w)) w).

Definition list_items (l : loc) : M (list Exchange) :=
  fun w => (Ok (deref w l), w).

(** [time.time()] *)
Definition read_time (E : Env) : M Z :=
  fun w => (Ok (time_time E (ticks w)), tick w).

(** [datetime.now().isoformat()] *)
Definition read_now (E : Env) : M string :=
  fun w => (Ok (now_isoformat E (ticks w)), tick w).

(** [session_id in self.conversation_histories] *)
Definition histories_contains (session_id : string) : M bool :=
  fun w => (Ok (bool_decide (is_Some (conversation_histories w !! session_id))), w).

(** [self.conversation_histories[session_id] = l] *)
Definition histories_set (session_id : string) (l : loc) : M unit :=
  fun w => (Ok tt, set_histories (<[session_id := l]> (conversation_histories w)) w).

(** [self.conversation_histories[session_id]] *)
Definition histories_get (session_id : string) : M loc :=
  fun w =>
    match conversation_histories w !! session_id with
    | Some l => (Ok l, w)
    | None => (Raise (KeyError session_id), w)
    end.

(** [del self.conversation_histories[session_id]] *)
Definition histories_del (session_id : string) : M unit :=
  fun w =>
    match conversation_histories w !! session_id with
    | Some _ => (Ok tt, set_histories (delete session_id (conversation_histories w)) w)
    | None => (Raise (KeyError session_id), w)
    end.

(** [session_id in user_sessions] *)
Definition user_sessions_contains (session_id : string) : M bool :=
  fun w => (Ok (bool_decide (is_Some (user_sessions w !! session_id))), w).

(** [del user_sessions[session_id]] *)
Definition user_sessions_del (session_id : string) : M unit :=
  fun w =>
    match user_sessions w !! session_id with
    | Some _ => (Ok tt, set_user_sessions (delete session_id (user_sessions w)) w)
    | None => (Raise (KeyError session_id), w)
    end.

(** ** The session store *)

(** [OptimizedRAGSystem.get_conversation_history] *)
Definition get_conversation_history (session_id : string) : M loc :=
  let* present := histories_contains session_id in
  (if present : bool then ret tt
   else let* l := new_list [] in histories_set session_id l) ;;
  histories_get session_id.

(** [OptimizedRAGSystem.update_conversation_history] *)
Definition update_conversation_history (E : Env)
    (session_id user_query ai_response : string) : M unit :=
  let* history := get_conversation_history session_id in
  let* now := read_now E in
  list_append history (mkExchange user_query ai_response now) ;;
  let* items := list_items history in
  if (10 <? length items)%nat then
    let* l := new_list (Py.last_n 10 items) in
    histories_set session_id l
  else ret tt.

(** [delete_session]: the body of the route [DELETE /sessions/{session_id}];
    the value is the text under the key ["message"]. *)
Definition delete_session (session_id : string) : M string :=
  let* in_sessions := user_sessions_contains session_id in
  (if in_sessions : bool then user_sessions_del session_id else ret tt) ;;
  let* in_histories := histories_contains session_id in
  (if in_histories : bool then histories_del session_id else ret tt) ;;
  ret ("Session " +:+ session_id +:+ " cleared.").

(** ** Retrieval *)

(** The f-string that labels a retrieved document. *)
Definition source_info (doc : Document) : string :=
  "Page " +:+ py_str (default (MStr "N/A") (metadata doc !! "page"))
  +:+ " - " +:+ py_str (default (MStr "Unknown") (metadata doc !! "source")).

(** [OptimizedRAGSystem.get_context_documents] *)
Definition get_context_documents (E : Env) (query : string)
    : M (list string * list string) :=
  try_except
    (match retriever E with
     | None => ret ([], [])
     | Some get_relevant_documents =>
         let* docs := lift_result (get_relevant_documents query) in
         ret (map page_content docs, map source_info docs)
     end)
    (fun _ => ret ([], [])).

(** ** Prompt assembly *)

Definition no_context : string := "No relevant context found.".

(** ["\n\n".join(context_texts) if context_texts else "No relevant context found."] *)
Definition context_block (context_texts : list string) : string :=
  match context_texts with
  | [] => no_context
  | _ => Py.join (Py.nl +:+ Py.nl) context_texts
  end.

(** One turn of the loop over [recent_history]. *)
Definition render_exchange (item : Exchange) : string :=
  "User: " +:+ user item +:+ Py.nl
  +:+ "Assistant: " +:+ assistant item +:+ Py.nl +:+ Py.nl.

Definition render_all (items : list Exchange) : string :=
  foldl (fun acc item => acc +:+ render_exchange item) EmptyString items.

(** The block built under [# Build conversation context]. *)
Definition conversation_context (history : list Exchange) : string :=
  match history with
  | [] => EmptyString
  | _ => render_all (Py.last_n 3 history)
  end.

Definition persona : string :=
  "You are Budger, an advanced AI customer service agent for Cogent Infotech Corporation. You are helpful, professional, and knowledgeable about the company's services and policies."
  +:+ Py.nl +:+ Py.nl.

Definition key_guidelines : string :=
  "Key Guidelines:" +:+ Py.nl
  +:+ "- Provide accurate, helpful responses based on the context provided" +:+ Py.nl
  +:+ "- Be conversational and friendly while maintaining professionalism" +:+ Py.nl
  +:+ "- If you don't know something, admit it rather than guessing" +:+ Py.nl
  +:+ "- Keep responses concise but comprehensive" +:+ Py.nl
  +:+ "- Use the conversation history to maintain context" +:+ Py.nl +:+ Py.nl.

(** The part both templates share, with the three fields filled in as
    [str.format] does. *)
Definition template_body (conversation context query : string) : string :=
  "Previous Conversation:" +:+ Py.nl
  +:+ conversation +:+ Py.nl +:+ Py.nl
  +:+ "Relevant Context:" +:+ Py.nl
  +:+ context +:+ Py.nl +:+ Py.nl
  +:+ "Current User Query: " +:+ query +:+ Py.nl +:+ Py.nl
  +:+ "Please provide a helpful and accurate response:".

(** [system_prompt.format(...)] in [stream_response] *)
Definition stream_prompt (history : list Exchange)
    (context_texts : list string) (query : string) : string :=
  persona +:+ key_guidelines
  +:+ template_body (conversation_context history) (context_block context_texts) query.

(** [system_prompt.format(...)] in [get_response] *)
Definition response_prompt (history : list Exchange)
    (context_texts : list string) (query : string) : string :=
  persona
  +:+ template_body (conversation_context history) (context_block context_texts) query.

(** ** Generation *)

(** [(await self.llm.ainvoke(prompt)).content] *)
Definition ainvoke (E : Env) (prompt : string) : M string :=
  fun w => (llm_ainvoke E prompt, log_prompt prompt w).

Definition apology : string :=
  "I apologize, but I'm experiencing technical difficulties. Please try again in a moment.".

(** The dict [get_response] returns. *)
Record Response := mkResponse {
  response : string;
  sources : list string;
  session_id : string;
  response_timestamp : string;
  response_time : Z
}.

(** [OptimizedRAGSystem.get_response].  [response_time] is the difference
    of two clock readings. *)
Definition get_response (E : Env) (query sid : string) : M Response :=
  let* start_time := read_time E in
  try_except
    (let* history := get_conversation_history sid in
     let* (context_texts, srcs) := get_context_documents E query in
     let* items := list_items history in
     let prompt := response_prompt items context_texts query in
     let* full_response := ainvoke E prompt in
     update_conversation_history E sid query full_response ;;
     let* end_time := read_time E in
     let* now := read_now E in
     ret (mkResponse full_response srcs sid now (end_time - start_time)))
    (fun _ =>
       let* now := read_now E in
       let* end_time := read_time E in
       ret (mkResponse apology [] sid now (end_time - start_time))).

(** ** The response streamer *)

(** The dict that [stream_response] serialises with [json.dumps] at each
    [yield], by its ["type"].  The field the partial event calls
    ["full_response"] is the text streamed so far. *)
Inductive StreamEvent :=
| EvPartial (content full_response : string) (srcs : list string) (sid : string)
| EvComplete (content : string) (srcs : list string) (sid : string)
    (elapsed : Z) (stamp : string)
| EvError (content : string) (srcs : list string) (sid : string) (stamp : string).

(** The async generator [stream_response(query, session_id)] between two
    resumptions.  [GenStart]: created, no line run yet.  [GenPartial]:
    suspended at the [yield] inside the loop, with the local variables the
    rest of the body reads; [rest] holds the words the loop has not reached.
    [GenLast]: suspended at the [yield] of the complete or of the error
    event.  [GenClosed]: the body has returned. *)
Inductive Gen :=
| GenStart (query sid : string)
| GenPartial (query sid : string) (start_time : Z) (srcs : list string)
    (full_response : string) (rest : list string) (streamed_response : string)
| GenLast
| GenClosed.

(** The loop over [words] from its current position up to the next
    [yield], and the lines after the loop when no word is left. *)
Definition stream_words (E : Env) (query sid : string) (start_time : Z)
    (srcs : list string) (full_response : string)
    (words : list string) (streamed_response : string)
    : M (StreamEvent * Gen) :=
  match words with
  | word :: rest =>
      let streamed := streamed_response +:+ word +:+ " " in
      ret (EvPartial (word +:+ " ") (Py.strip streamed) srcs sid,
           GenPartial query sid start_time srcs full_response rest streamed)
  | [] =>
      update_conversation_history E sid query full_response ;;
      let* end_time := read_time E in
      let* now := read_now E in
      ret (EvComplete full_response srcs sid (end_time - start_time) now,
           GenLast)
  end.

(** The [except Exception] clause of [stream_response]. *)
Definition stream_failed (E : Env) (sid : string) (e : exn)
    : M (StreamEvent * Gen) :=
  let* now := read_now E in
  ret (EvError apology [] sid now, GenLast).

(** [stream_response] from its first line to its first [yield]. *)
Definition stream_begin (E : Env) (query sid : string)
    : M (StreamEvent * Gen) :=
  let* start_time := read_time E in
  try_except
    (let* history := get_conversation_history sid in
     let* (context_texts, srcs) := get_context_documents E query in
     let* items := list_items history in
     let prompt := stream_prompt items context_texts query in
     let* full_response := ainvoke E prompt in
     stream_words E query sid start_time srcs full_response
                  (Py.split full_response) EmptyString)
    (stream_failed E sid).

(** One [__anext__]: run the body to its next [yield] ([Some] event) or to
    its end ([None], that is [StopAsyncIteration]).  [asyncio.sleep] only
    suspends the coroutine. *)
Definition anext (E : Env) (g : Gen) : M (option StreamEvent * Gen) :=
  match g with
  | GenStart query sid =>
      let* (ev, g') := stream_begin E query sid in
      ret (Some ev, g')
  | GenPartial query sid start_time srcs full_response rest streamed =>
      let* (ev, g') :=
        try_except
          (stream_words E query sid start_time srcs full_response rest streamed)
          (stream_failed E sid) in
      ret (Some ev, g')
  | GenLast => ret (None, GenClosed)
  | GenClosed => ret (None, GenClosed)
  end.

(** [OptimizedRAGSystem.stream_response]: the call only creates the
    generator. *)
Definition stream_response (query sid : string) : Gen := GenStart query sid.

(** How an [async for] over a generator ended. *)
Inductive Ending :=
| Exhausted
| Suspended (g : Gen)
| Escaped (e : exn).

(** [async for chunk in gen], as [chat_stream_endpoint] and
    [websocket_endpoint] run it, for at most [fuel] resumptions.  Each
    event is paired with the world the consumer sees when it receives it. *)
Fixpoint async_for (E : Env) (fuel : nat) (g : Gen) (w : World)
    : list (StreamEvent * World) * Ending * World :=
  match fuel with
  | 0 => ([], Suspended g, w)
  | S fuel' =>
      match anext E g w with
      | (Ok (Some ev, g'), w') =>
          let '(evs, ending, w'') := async_for E fuel' g' w' in
          ((ev, w') :: evs, ending, w'')
      | (Ok (None, _), w') => ([], Exhausted, w')
      | (Raise e, w') => ([], Escaped e, w')
      end
  end.

(** ** Ingestion *)

Record DocumentUploadRequest := mkDocumentUploadRequest {
  file_path : string;
  collection_name : string
}.

(** [loader.load], run in the executor. *)
Definition load (E : Env) (kind : Loader) (path : string) : M (list Document) :=
  fun w => (loader_load E kind path, log_load kind path w).

(** [self.vectorstore.add_documents(batch)], run in the executor. *)
Definition add_documents (E : Env) (batch : list Document) : M unit :=
  fun w => (vectorstore_add_documents E batch, log_batch batch w).

(** The loop that tags every split. *)
Fixpoint tag_splits (E : Env) (collection : string) (splits : list Document)
    : M (list Document) :=
  match splits with
  | [] => ret []
  | split :: rest =>
      let* now := read_now E in
      let tagged :=
        mkDocument (page_content split)
          (<["timestamp" := MStr now]>
             (<["collection" := MStr collection]> (metadata split))) in
      let* rest' := tag_splits E collection rest in
      ret (tagged :: rest')
  end.

(** The loop over the batches. *)
Fixpoint add_batches (E : Env) (bs : list (list Document)) : M unit :=
  match bs with
  | [] => ret tt
  | batch :: rest => add_documents E batch ;; add_batches E rest
  end.

(** [try: persist()  except AttributeError: pass] *)
Definition persist_if_supported (E : Env) : M unit :=
  fun w =>
    match vectorstore_persist E with
    | Raise (AttributeError _) => (Ok tt, w)
    | r => (r, w)
    end.

(** [OptimizedRAGSystem.add_documents_async] *)
Definition add_documents_async (E : Env) (path collection : string) : M bool :=
  try_except
    (let kind := if Py.endswith path ".pdf" then PyPDFLoader else DirectoryLoader in
     let* documents := load E kind path in
     let* splits := tag_splits E collection (split_documents E documents) in
     add_batches E (Py.batches 50 splits) ;;
     persist_if_supported E ;;
     ret true)
    (fun _ => ret false).

Definition upload_path : string :=
  "C:/Users/Asus/OneDrive/Desktop/TMU-interns-ai-voice-agent-gpt3.5-version/data/sales_ai_knowledgebase.pdf".

(** [upload_document]: the body of the route [POST /upload].  The value is
    the text under ["message"]; a failure is the [HTTPException] with
    status 500, here an [OtherError] carrying its detail. *)
Definition upload_document (E : Env) (request : DocumentUploadRequest) : M string :=
  let* success := add_documents_async E upload_path (collection_name request) in
  if success : bool then ret "Documents added successfully."
  else raise (OtherError "Failed to add documents.").

(** ** Observations the properties are stated with *)

(** The exchanges a session holds: the items of the list
    [get_conversation_history] returns for it
    (lemma [get_conversation_history_spec]). *)
Definition history_of (w : World) (session_id : string) : list Exchange :=
  match conversation_histories w !! session_id with
  | Some l => deref w l
  | None => []
  end.

(** The value of [get_context_documents], which reads no state. *)
Definition retrieved (E : Env) (query : string) : list string * list string :=
  match retriever E with
  | None => ([], [])
  | Some get_relevant_documents =>
      match get_relevant_documents query with
      | Ok docs => (map page_content docs, map source_info docs)
      | Raise _ => ([], [])
      end
  end.

(** The retrieval step fails: there is no vector store, or the retriever
    raises. *)
Definition retrieval_fails (E : Env) (query : string) : Prop :=
  retriever E = None
  \/ exists get_relevant_documents e,
       retriever E = Some get_relevant_documents
       /\ get_relevant_documents query = Raise e.

(** [needle] occurs in [hay]. *)
Definition occurs_in (needle hay : string) : Prop :=
  exists before after, hay = before +:+ needle +:+ after.

Definition is_partial (ev : StreamEvent) : bool :=
  match ev with EvPartial _ _ _ _ => true | _ => false end.

Definition is_complete (ev : StreamEvent) : bool :=
  match ev with EvComplete _ _ _ _ _ => true | _ => false end.

Definition is_error (ev : StreamEvent) : bool :=
  match ev with EvError _ _ _ _ => true | _ => false end.

(** How many of the events are error events. *)
Definition error_count (evs : list StreamEvent) : nat :=
  length (List.filter is_error evs).

(** The events of a drained stream, without the worlds. *)
Definition events_of (run : list (StreamEvent * World) * Ending * World)
    : list StreamEvent :=
  map fst (fst (fst run)).

Definition ending_of (run : list (StreamEvent * World) * Ending * World)
    : Ending :=
  snd (fst run).

(** [n] calls of [update_conversation_history] on one session, one for each
    pair of a query and an answer. *)
Fixpoint append_all (E : Env) (session_id : string)
    (turns : list (string * string)) : M unit :=
  match turns with
  | [] => ret tt
  | (q, a) :: rest =>
      update_conversation_history E session_id q a ;;
      append_all E session_id rest
  end.

(** The exchanges those calls record when the first one reads the clock at
    tick [t]. *)
Fixpoint stamped (E : Env) (t : nat) (turns : list (string * string))
    : list Exchange :=
  match turns with
  | [] => []
  | (q, a) :: rest => mkExchange q a (now_isoformat E t) :: stamped E (S t) rest
  end.

(** The partial events for [words] when [streamed] has been sent already. *)
Fixpoint partial_events (srcs : list string) (sid : string)
    (words : list string) (streamed : string) : list StreamEvent :=
  match words with
  | [] => []
  | word :: rest =>
      EvPartial (word +:+ " ") (Py.strip (streamed +:+ word +:+ " ")) srcs sid
      :: partial_events srcs sid rest (streamed +:+ word +:+ " ")
  end.

(** *** Concrete worlds and collaborators *)

Definition empty_world : World := mkWorld ∅ ∅ ∅ 0 [] [] [].

Definition sample_document : Document :=
  mkDocument "Cogent offers staffing."
    (<["page" := MInt 3]> (<["source" := MStr "kb.pdf"]> ∅)).

(** Every collaborator answers; the model says ["Hello world test"]. *)
Definition env_ok : Env :=
  mkEnv (fun n => Z.of_nat n) (fun n => "t" +:+ pretty n)
    (Some (fun _ => Ok [sample_document]))
    (fun _ => Ok "Hello world test")
    (fun _ _ => Ok [sample_document]) (fun docs => docs)
    (fun _ => Ok tt) (Raise (AttributeError "persist")).

(** The model call raises. *)
Definition env_llm_down : Env :=
  mkEnv (fun n => Z.of_nat n) (fun n => "t" +:+ pretty n)
    (Some (fun _ => Ok [sample_document]))
    (fun _ => Raise (OtherError "rate limit"))
    (fun _ _ => Ok [sample_document]) (fun docs => docs)
    (fun _ => Ok tt) (Raise (AttributeError "persist")).

(** The retriever raises, the model answers ["Hi"]. *)
Definition env_index_down : Env :=
  mkEnv (fun n => Z.of_nat n) (fun n => "t" +:+ pretty n)
    (Some (fun _ => Raise (OtherError "index unavailable")))
    (fun _ => Ok "Hi")
    (fun _ _ => Ok [sample_document]) (fun docs => docs)
    (fun _ => Ok tt) (Raise (AttributeError "persist")).

Definition eleven_turns : list (string * string) :=
  map (fun n : nat => ("q" +:+ pretty n, "a" +:+ pretty n)) (seq 0 11).

(** The model call raises for the prompt of the stream for the query
    ["hi"] in a new session, and answers every other prompt. *)
Definition env_stream_call_fails : Env :=
  mkEnv (fun n => Z.of_nat n) (fun n => "t" +:+ pretty n)
    (Some (fun _ => Ok [sample_document]))
    (fun prompt =>
       if String.eqb prompt (stream_prompt [] ["Cogent offers staffing."] "hi")
       then Raise (OtherError "rate limit") else Ok "Hi")
    (fun _ _ => Ok [sample_document]) (fun docs => docs)
    (fun _ => Ok tt) (Raise (AttributeError "persist")).

(** The model call raises for the prompt of the blocking operation for the
    query ["hi"] in a new session, and answers every other prompt. *)
Definition env_blocking_call_fails : Env :=
  mkEnv (fun n => Z.of_nat n) (fun n => "t" +:+ pretty n)
    (Some (fun _ => Ok [sample_document]))
    (fun prompt =>
       if String.eqb prompt (response_prompt [] ["Cogent offers staffing."] "hi")
       then Raise (OtherError "rate limit") else Ok "Hi")
    (fun _ _ => Ok [sample_document]) (fun docs => docs)
    (fun _ => Ok tt) (Raise (AttributeError "persist")).

(** All that a failed turn of session [sid] changes in the store, from [w]
    to [w']: a session the dictionary already knows keeps its list, and the
    dictionary and every list are as before; an unknown session is added
    to the dictionary, bound to a new list object that is empty.  The
    module-level [user_sessions] is as before. *)
Definition only_registers (sid : string) (w w' : World) : Prop :=
  user_sessions w' = user_sessions w
  /\ match conversation_histories w !! sid with
     | Some _ =>
         conversation_histories w' = conversation_histories w
         /\ lists w' = lists w
     | None =>
         exists l,
           lists w !! l = None
           /\ conversation_histories w' = <[sid := l]> (conversation_histories w)
           /\ lists w' = <[l := []]> (lists w)
     end.

(** ** Further routes and scripts *)

(** [debug_context]: the body of the route [GET /debug/context]; the value
    holds the entries ["context_texts"], ["sources"] and ["count"]. *)
Definition debug_context (E : Env) (query : string)
    : M (list string * list string * nat) :=
  let* (context_texts, srcs) := get_context_documents E query in
  ret (context_texts, srcs, length context_texts).

(** [pdf_files] in [load_knowledge_base] of [load_documents.py]. *)
Definition pdf_files : list string :=
  ["Sales AI Agent Knowledgebase (1).pdf";
   "data/Sales AI Agent Knowledgebase (1).pdf";
   "documents/Sales AI Agent Knowledgebase (1).pdf";
   "data/sales_ai_knowledgebase.pdf"].

(** The loop that looks for the first candidate [os.path.exists] accepts;
    [None] when the loop ends without a [break]. *)
Fixpoint first_existing (path_exists : string -> bool) (paths : list string)
    : option string :=
  match paths with
  | [] => None
  | path :: rest =>
      if path_exists path then Some path else first_existing path_exists rest
  end.

(** [load_knowledge_base] of [load_documents.py]; [path_exists] is
    [os.path.exists].  What it prints is left out. *)
Definition load_knowledge_base (E : Env) (path_exists : string -> bool) : M bool :=
  match first_existing path_exists pdf_files with
  | None => ret false
  | Some pdf_path =>
      try_except
        (let* success := add_documents_async E pdf_path "cogent_sales" in
         if success : bool then ret true else ret false)
        (fun _ => ret false)
  end.

(** *** Observations for the further properties *)

(** No two sessions share a list object, and every list a session refers
    to is in the store. *)
Definition store_ok (w : World) : Prop :=
  (forall s l, conversation_histories w !! s = Some l -> is_Some (lists w !! l))
  /\ (forall s1 s2 l,
        conversation_histories w !! s1 = Some l ->
        conversation_histories w !! s2 = Some l -> s1 = s2).

(** No session holds more than ten exchanges. *)
Definition capped (w : World) : Prop :=
  forall s, length (history_of w s) <= 10.

(** One use of the engine by a route or a script, with the collaborators it
    meets. *)
Inductive Call :=
| CallGetResponse (E : Env) (query sid : string)
| CallStream (E : Env) (query sid : string) (fuel : nat)
| CallDelete (sid : string)
| CallUpload (E : Env) (request : DocumentUploadRequest)
| CallDebug (E : Env) (query : string)
| CallLoadKnowledgeBase (E : Env) (path_exists : string -> bool).

(** The world a call leaves.  A stream is consumed for at most [fuel]
    resumptions and then dropped. *)
Definition call (c : Call) (w : World) : World :=
  match c with
  | CallGetResponse E query sid => snd (get_response E query sid w)
  | CallStream E query sid fuel =>
      snd (async_for E fuel (stream_response query sid) w)
  | CallDelete sid => snd (delete_session sid w)
  | CallUpload E request => snd (upload_document E request w)
  | CallDebug E query => snd (debug_context E query w)
  | CallLoadKnowledgeBase E path_exists =>
      snd (load_knowledge_base E path_exists w)
  end.

(** The world after a sequence of calls, one after the other. *)
Definition serve (calls : list Call) (w : World) : World :=
  foldl (fun w c => call c w) w calls.

(** [s] has no white space. *)
Fixpoint spaceless (s : string) : bool :=
  match s with
  | EmptyString => true
  | String c rest => negb (Py.isspace c) && spaceless rest
  end.

(** [s] is white space only, or empty. *)
Fixpoint blank (s : string) : bool :=
  match s with
  | EmptyString => true
  | String c rest => Py.isspace c && blank rest
  end.

(** The chunks [add_documents_async] makes of [splits] when the first tag
    reads the clock at tick [t]. *)
Fixpoint tagged (E : Env) (collection : string) (t : nat)
    (splits : list Document) : list Document :=
  match splits with
  | [] => []
  | split :: rest =>
      mkDocument (page_content split)
        (<["timestamp" := MStr (now_isoformat E t)]>
           (<["collection" := MStr collection]> (metadata split)))
      :: tagged E collection (S t) rest
  end.

(** [persist] ended in a way [add_documents_async] accepts: it returned, or
    the attribute is missing. *)
Definition persist_accepted (E : Env) : bool :=
  match vectorstore_persist E with
  | Ok _ => true
  | Raise (AttributeError _) => true
  | Raise _ => false
  end.

(** Every batch is taken by the vector store. *)
Definition all_added (E : Env) (bs : list (list Document)) : bool :=
  forallb (fun batch =>
             match vectorstore_add_documents E batch with
             | Ok _ => true
             | Raise _ => false
             end) bs.

(** A computation keeps a property of the world, whether it returns or
    raises. *)
Definition keeps (P : World -> Prop) {A} (c : M A) : Prop :=
  forall w, P w -> P (snd (c w)).

(** The two properties of the store that every operation keeps. *)
Definition store_inv (w : World) : Prop := store_ok w /\ capped w.

(** The session a generator of [stream_response] works for. *)
Definition gen_of (sid : string) (g : Gen) : Prop :=
  match g with
  | GenStart _ s => s = sid
  | GenPartial _ s _ _ _ _ _ => s = sid
  | GenLast => True
  | GenClosed => True
  end.

(** What [streamed_response] holds after the loop has gone through
    [words]: every word followed by a space. *)
Definition spaced (words : list string) : string :=
  foldl (fun acc word => acc +:+ word +:+ " ") EmptyString words.

(** The model answers with white space only. *)
Definition env_blank : Env :=
  mkEnv (fun n => Z.of_nat n) (fun n => "t" +:+ pretty n)
    (Some (fun _ => Ok [sample_document]))
    (fun _ => Ok ("  " +:+ Py.nl))
    (fun _ _ => Ok [sample_document]) (fun docs => docs)
    (fun _ => Ok tt) (Raise (AttributeError "persist")).

(** The model's answer has runs of spaces, a line break and white space
    at both ends. *)
Definition env_ragged : Env :=
  mkEnv (fun n => Z.of_nat n) (fun n => "t" +:+ pretty n)
    (Some (fun _ => Ok [sample_document]))
    (fun _ => Ok ("  Hello   world" +:+ Py.nl +:+ "test "))
    (fun _ _ => Ok [sample_document]) (fun docs => docs)
    (fun _ => Ok tt) (Raise (AttributeError "persist")).

(** The batches [add_documents_async] hands to the vector store: all of
    them up to the first one the store refuses, that one included. *)
Fixpoint attempted (E : Env) (bs : list (list Document)) : list (list Document) :=
  match bs with
  | [] => []
  | batch :: rest =>
      batch :: match vectorstore_add_documents E batch with
               | Ok _ => attempted E rest
               | Raise _ => []
               end
  end.

(** The vector store refuses every batch. *)
Definition env_store_down : Env :=
  mkEnv (fun n => Z.of_nat n) (fun n => "t" +:+ pretty n)
    (Some (fun _ => Ok [sample_document]))
    (fun _ => Ok "Hello world test")
    (fun _ _ => Ok [sample_document]) (fun docs => docs)
    (fun _ => Raise (OtherError "store unavailable")) (Ok tt).

(** The loader finds a document without text: the splitter returns
    nothing. *)
Definition env_no_text : Env :=
  mkEnv (fun n => Z.of_nat n) (fun n => "t" +:+ pretty n)
    (Some (fun _ => Ok [sample_document]))
    (fun _ => Ok "Hello world test")
    (fun _ _ => Ok [sample_document]) (fun docs => [])
    (fun _ => Ok tt) (Ok tt).

(** ** Accounts and the chat log *)

(** The request models [SignupRequest], [LoginRequest] and [QueryRequest],
    each in a module of its name. *)
Module SignupRequest.
Record t := mk {
  username : string;
  email : string;
  password : string
}.
End SignupRequest.

Module LoginRequest.
Record t := mk {
  login_id : string;
  password : string
}.
End LoginRequest.

Module QueryRequest.
Record t := mk {
  query : string;
  session_id : string;
  language : string;
  stream : bool
}.
End QueryRequest.

(** A row of the table [users]. *)
Record UserRow := mkUserRow {
  users_id : nat;
  users_username : string;
  users_email : string;
  users_password : string;
  users_created_at : string
}.

(** A row of the table [chat_history]. *)
Record ChatRow := mkChatRow {
  chat_history_id : nat;
  chat_history_user_id : nat;
  chat_history_session_id : string;
  chat_history_query : string;
  chat_history_response : string;
  chat_history_timestamp : string
}.

(** The database file: the two tables in the order of insertion, the
    largest id each [AUTOINCREMENT] column has given out, and the number of
    rows written so far. *)
Record Database := mkDatabase {
  users : list UserRow;
  chat_history : list ChatRow;
  users_seq : nat;
  chat_history_seq : nat;
  rows_written : nat
}.

(** What the database engine decides: [CURRENT_TIMESTAMP] at each write,
    and which of the rows a [SELECT] matches comes first. *)
Record Sqlite := mkSqlite {
  current_timestamp : nat -> string;
  first_of : list UserRow -> nat
}.

(** [INSERT INTO users (username, email, password) VALUES (?, ?, ?)] and
    the commit.  [None] is [sqlite3.IntegrityError]: one of the two [UNIQUE]
    columns already holds the value, and nothing is written. *)
Definition insert_user (Sq : Sqlite) (name mail pass : string) (db : Database)
    : option Database :=
  if existsb (fun row => String.eqb (users_username row) name
                         || String.eqb (users_email row) mail) (users db)
  then None
  else Some (mkDatabase
               (users db
                ++ [mkUserRow (1 + users_seq db) name mail pass
                      (current_timestamp Sq (rows_written db))])
               (chat_history db)
               (1 + users_seq db) (chat_history_seq db)
               (1 + rows_written db)).

(** The rows of [SELECT ... FROM users WHERE username = ? OR email = ?]
    with both parameters [id]. *)
Definition users_named (id : string) (db : Database) : list UserRow :=
  List.filter (fun row => String.eqb (users_username row) id
                          || String.eqb (users_email row) id) (users db).

(** [cursor.fetchone()]: the row the engine yields first, [None] when the
    query matches no row. *)
Definition fetchone (Sq : Sqlite) (rows : list UserRow) : option UserRow :=
  match rows with
  | [] => None
  | row :: _ => Some (nth (first_of Sq rows mod length rows) rows row)
  end.

(** [INSERT INTO chat_history (user_id, session_id, query, response)
    VALUES (?, ?, ?, ?)] and the commit. *)
Definition insert_chat (Sq : Sqlite) (uid : nat) (sid q r : string)
    (db : Database) : Database :=
  mkDatabase (users db)
    (chat_history db
     ++ [mkChatRow (1 + chat_history_seq db) uid sid q r
           (current_timestamp Sq (rows_written db))])
    (users_seq db) (1 + chat_history_seq db) (1 + rows_written db).

(** What a route answers: the status and the entries of the JSON body. *)
Inductive Reply :=
| Json (status : nat) (body : list (string * string)).

(** [signup_user]: the body of the route [POST /signup]. *)
Definition signup_user (Sq : Sqlite) (request : SignupRequest.t) (db : Database)
    : Reply * Database :=
  match insert_user Sq (SignupRequest.username request)
          (SignupRequest.email request) (SignupRequest.password request) db with
  | Some db' => (Json 200 [("message", "User registered successfully.")], db')
  | None => (Json 400 [("error", "Username or email already exists.")], db)
  end.

(** [login_user]: the body of the route [POST /login]. *)
Definition login_user (Sq : Sqlite) (request : LoginRequest.t) (db : Database)
    : Reply :=
  match fetchone Sq (users_named (LoginRequest.login_id request) db) with
  | Some row =>
      if String.eqb (users_password row) (LoginRequest.password request)
      then Json 200 [("message", "Login successful");
                     ("username", users_username row)]
      else Json 401 [("error", "Invalid username/email or password.")]
  | None => Json 401 [("error", "Invalid username/email or password.")]
  end.

(** [chat_endpoint]: the body of the route [POST /chat], on the engine's
    world and the database, for a request whose [sqlite3] calls (connect,
    [SELECT], [INSERT], commit) all return.  The route has no handler around
    these calls: an [sqlite3] error would leave it as an exception, after the
    turn was recorded in memory and with nothing written to the database;
    that case is not part of this definition. *)
Definition chat_endpoint (E : Env) (Sq : Sqlite) (request : QueryRequest.t)
    (w : World) (db : Database) : Result Response * World * Database :=
  match get_response E (QueryRequest.query request)
          (QueryRequest.session_id request) w with
  | (Ok result, w') =>
      let db' :=
        match fetchone Sq (users_named (QueryRequest.session_id request) db) with
        | Some row =>
            insert_chat Sq (users_id row) (QueryRequest.session_id request)
              (QueryRequest.query request) (response result) db
        | None => db
        end in
      (Ok result, w', db')
  | (Raise e, w') => (Raise e, w', db)
  end.

Definition empty_database : Database := mkDatabase [] [] 0 0 0.

(** An engine that yields the rows in the order of insertion. *)
Definition sqlite_in_order : Sqlite :=
  mkSqlite (fun n => "2025-01-01 00:00:0" +:+ pretty n) (fun _ => 0).

(** One request to the account routes or to the chat route. *)
Inductive Visit :=
| VisitSignup (Sq : Sqlite) (request : SignupRequest.t)
| VisitLogin (Sq : Sqlite) (request : LoginRequest.t)
| VisitChat (E : Env) (Sq : Sqlite) (request : QueryRequest.t).

(** The world and the database a request leaves. *)
Definition visit (v : Visit) (state : World * Database) : World * Database :=
  match v with
  | VisitSignup Sq request => (fst state, snd (signup_user Sq request (snd state)))
  | VisitLogin Sq request => state
  | VisitChat E Sq request =>
      let '(_, w', db') := chat_endpoint E Sq request (fst state) (snd state) in
      (w', db')
  end.

Definition visits (vs : list Visit) (state : World * Database) : World * Database :=
  foldl (fun state v => visit v state) state vs.

(** [row] is the account the id [id] names: its username or its email is
    [id]. *)
Definition names_row (id : string) (row : UserRow) : Prop :=
  users_username row = id \/ users_email row = id.

(** What the accounts and the chat log keep: usernames, emails and ids are
    each unique, no id exceeds the counter, and every row of the chat log
    carries the id of an account that the row's session id names. *)
Definition database_ok (db : Database) : Prop :=
  NoDup (map users_username (users db))
  /\ NoDup (map users_email (users db))
  /\ NoDup (map users_id (users db))
  /\ Forall (fun row => users_id row <= users_seq db) (users db)
  /\ Forall (fun chat =>
               exists row,
                 In row (users db)
                 /\ users_id row = chat_history_user_id chat
                 /\ names_row (chat_history_session_id chat) row)
            (chat_history db).

(** * Properties *)

(** ** The session store *)

Lemma deref_new_list_empty w l :
  deref (set_lists (<[fresh (dom (lists w)) := []]> (lists w)) w) l = deref w l.
Proof.
  unfold deref; simpl.
  destruct (decide (fresh (dom (lists w)) = l)) as [<-|Hne].
  - rewrite lookup_insert_eq.
    assert (Hnone : lists w !! fresh (dom (lists w)) = None)
      by (apply not_elem_of_dom, is_fresh).
    by rewrite Hnone.
  - by rewrite lookup_insert_ne.
Qed.

(** [get_conversation_history] never raises; it returns the session's list,
    creates an empty one when the session is new, and changes the items of
    no list. *)
Lemma get_conversation_history_spec session_id w :
  exists l w',
    get_conversation_history session_id w = (Ok l, w')
    /\ conversation_histories w' !! session_id = Some l
    /\ deref w' l = history_of w session_id
    /\ (forall s, history_of w' s = history_of w s)
    /\ ticks w' = ticks w
    /\ prompts_sent w' = prompts_sent w
    /\ user_sessions w' = user_sessions w.
Proof.
  unfold get_conversation_history, bind, histories_contains, histories_get,
    history_of.
  destruct (conversation_histories w !! session_id) as [l|] eqn:Hl.
  - rewrite bool_decide_true by eauto. simpl. rewrite Hl.
    exists l, w. repeat split; auto.
  - rewrite bool_decide_false by (intros [? ?]; discriminate). simpl.
    rewrite lookup_insert_eq.
    eexists _, _. split; [reflexivity|]. simpl.
    split; [apply lookup_insert_eq|].
    split; [unfold deref; simpl; by rewrite lookup_insert_eq|].
    split; [|auto].
    intros s. destruct (decide (session_id = s)) as [<-|Hne].
    + rewrite lookup_insert_eq, Hl. unfold deref; simpl. by rewrite lookup_insert_eq.
    + rewrite lookup_insert_ne by done.
      destruct (conversation_histories w !! s); [|done].
      apply deref_new_list_empty.
Qed.

Lemma last_n_short {A} n (l : list A) : length l <= n -> Py.last_n n l = l.
Proof.
  intros H. unfold Py.last_n. replace (length l - n) with 0 by lia. reflexivity.
Qed.

Lemma last_n_length {A} n (l : list A) : length (Py.last_n n l) = min n (length l).
Proof. unfold Py.last_n. rewrite length_drop. lia. Qed.

Lemma update_conversation_history_spec E session_id q a w :
  exists w',
    update_conversation_history E session_id q a w = (Ok tt, w')
    /\ history_of w' session_id
       = Py.last_n 10 (history_of w session_id
                       ++ [mkExchange q a (now_isoformat E (ticks w))])
    /\ ticks w' = S (ticks w)
    /\ prompts_sent w' = prompts_sent w.
Proof.
  unfold update_conversation_history.
  destruct (get_conversation_history_spec session_id w)
    as (l & w1 & Hget & Hl & Hitems & _ & Ht & Hp & _).
  unfold bind at 1. rewrite Hget.
  unfold bind at 1. unfold read_now at 1. 
  unfold bind at 1. unfold list_append at 1.
  unfold bind at 1. unfold list_items at 1.
  set (x := mkExchange q a (now_isoformat E (ticks w1))).
  set (w2 := set_lists _ (tick w1)).
  assert (Hd : deref w2 l = history_of w session_id ++ [mkExchange q a (now_isoformat E (ticks w))]).
  { unfold deref, w2; simpl. rewrite lookup_insert_eq. simpl.
    subst x. rewrite Ht. f_equal. apply Hitems. }
  rewrite Hd.
  destruct (10 <? _)%nat eqn:Hlen.
  - unfold bind, new_list, histories_set. eexists. split; [reflexivity|].
    split; [|subst w2; simpl; rewrite Ht, Hp; auto].
    unfold history_of; simpl. rewrite lookup_insert_eq.
    unfold deref; simpl. by rewrite lookup_insert_eq.
  - exists w2. split; [reflexivity|].
    apply Nat.ltb_ge in Hlen. rewrite last_n_short by done.
    unfold history_of. replace (conversation_histories w2) with (conversation_histories w1) by reflexivity.
    rewrite Hl, Hd. subst w2; simpl. rewrite Ht, Hp. auto.
Qed.

Lemma last_n_absorb {A} n (l r : list A) :
  Py.last_n n (Py.last_n n l ++ r) = Py.last_n n (l ++ r).
Proof.
  unfold Py.last_n.
  rewrite <- (drop_app_le l r (length l - n)) by lia.
  rewrite drop_drop. f_equal.
  rewrite length_drop, !length_app. lia.
Qed.

Lemma last_n_app_long {A} n (l r : list A) :
  n <= length r -> Py.last_n n (l ++ r) = Py.last_n n r.
Proof.
  intros H. unfold Py.last_n. rewrite length_app.
  replace (length l + length r - n) with (length l + (length r - n)) by lia.
  by rewrite drop_app_add.
Qed.

Lemma stamped_length E t turns : length (stamped E t turns) = length turns.
Proof.
  revert t. induction turns as [|[q a] rest IH]; intros t; simpl; [done|].
  by rewrite IH.
Qed.

(** A run of appends never raises, and leaves the last ten of what the
    session held followed by what was appended. *)
Lemma append_all_spec E session_id turns :
  forall w, exists w',
    append_all E session_id turns w = (Ok tt, w')
    /\ Py.last_n 10 (history_of w' session_id)
       = Py.last_n 10 (history_of w session_id ++ stamped E (ticks w) turns)
    /\ (turns <> [] -> length (history_of w' session_id) <= 10).
Proof.
  induction turns as [|[q a] rest IH]; intros w.
  - exists w. simpl. rewrite app_nil_r. by repeat split.
  - destruct (update_conversation_history_spec E session_id q a w)
      as (w1 & Hupd & Hh1 & Ht1 & _).
    destruct (IH w1) as (w2 & Hrest & Hh2 & Hlen2).
    exists w2. simpl. unfold bind. rewrite Hupd, Hrest.
    split; [done|]. split.
    + rewrite Hh2, Hh1, Ht1, last_n_absorb, <- app_assoc. done.
    + intros _. destruct rest as [|turn rest'].
      * simpl in Hrest. injection Hrest as <-.
        rewrite Hh1, last_n_length. lia.
      * by apply Hlen2.
Qed.

(** One append never raises and leaves at most ten exchanges: the ones the
    session held and the new one, last, without the oldest ones beyond
    ten. *)
Lemma append_caps_history E session_id w q a :
  exists w',
    update_conversation_history E session_id q a w = (Ok tt, w')
    /\ length (history_of w' session_id) <= 10
    /\ history_of w' session_id
       = drop (length (history_of w session_id) + 1 - 10)
           (history_of w session_id
            ++ [mkExchange q a (now_isoformat E (ticks w))]).
Proof.
  destruct (update_conversation_history_spec E session_id q a w)
    as (w' & Hupd & Hh & _).
  exists w'. split; [done|]. rewrite Hh. split.
  - rewrite last_n_length. lia.
  - unfold Py.last_n. rewrite length_app. done.
Qed.

(** C1: after more than ten appends to a session, reading its history
    returns exactly the ten most recent exchanges, oldest first; and every
    single append, in any state, leaves at most ten exchanges, the new one
    last, the oldest ones evicted. *)
Theorem history_keeps_the_ten_most_recent E session_id w turns :
  10 < length turns ->
  (exists w' l w'',
     append_all E session_id turns w = (Ok tt, w')
     /\ get_conversation_history session_id w' = (Ok l, w'')
     /\ deref w'' l = drop (length turns - 10) (stamped E (ticks w) turns)
     /\ length (deref w'' l) = 10)
  /\ (forall w0 q a,
        exists w1,
          update_conversation_history E session_id q a w0 = (Ok tt, w1)
          /\ length (history_of w1 session_id) <= 10
          /\ history_of w1 session_id
             = drop (length (history_of w0 session_id) + 1 - 10)
                 (history_of w0 session_id
                  ++ [mkExchange q a (now_isoformat E (ticks w0))])).
Proof.
  intros Hlen. split; [|intros; apply append_caps_history].
  destruct (append_all_spec E session_id turns w) as (w' & Happ & Hh & Hcap).
  destruct (get_conversation_history_spec session_id w')
    as (l & w'' & Hget & _ & Hitems & _).
  exists w', l, w''. split; [done|]. split; [done|].
  assert (Hne : turns <> []) by (intros ->; simpl in Hlen; lia).
  specialize (Hcap Hne).
  rewrite last_n_short in Hh by done.
  rewrite last_n_app_long in Hh by (rewrite stamped_length; lia).
  rewrite Hitems, Hh. unfold Py.last_n. rewrite stamped_length.
  split; [done|]. rewrite length_drop, stamped_length. lia.
Qed.

Lemma history_keeps_the_ten_most_recent_witness :
  exists w' l w'',
    append_all env_ok "s1" eleven_turns empty_world = (Ok tt, w')
    /\ get_conversation_history "s1" w' = (Ok l, w'')
    /\ deref w'' l
       = drop (length eleven_turns - 10) (stamped env_ok (ticks empty_world) eleven_turns)
    /\ length (deref w'' l) = 10.
Proof.
  apply (history_keeps_the_ten_most_recent env_ok "s1" empty_world eleven_turns).
  vm_compute. lia.
Defined.

(** ** Deleting a session *)

Lemma bind_ok {A B} (c : M A) (k : A -> M B) w a w' :
  c w = (Ok a, w') -> bind c k w = k a w'.
Proof. intros H. unfold bind. by rewrite H. Qed.

Lemma bind_raise {A B} (c : M A) (k : A -> M B) w e w' :
  c w = (Raise e, w') -> bind c k w = (Raise e, w').
Proof. intros H. unfold bind. by rewrite H. Qed.

Lemma user_sessions_del_guarded session_id w :
  (if bool_decide (is_Some (user_sessions w !! session_id))
   then user_sessions_del session_id else ret tt) w
  = (Ok tt, set_user_sessions (delete session_id (user_sessions w)) w).
Proof.
  case_bool_decide as H.
  - destruct H as [x Hx]. unfold user_sessions_del. by rewrite Hx.
  - unfold ret. rewrite delete_id by (by apply eq_None_not_Some).
    by destruct w.
Qed.

Lemma histories_del_guarded session_id w :
  (if bool_decide (is_Some (conversation_histories w !! session_id))
   then histories_del session_id else ret tt) w
  = (Ok tt, set_histories (delete session_id (conversation_histories w)) w).
Proof.
  case_bool_decide as H.
  - destruct H as [x Hx]. unfold histories_del. by rewrite Hx.
  - unfold ret. rewrite delete_id by (by apply eq_None_not_Some).
    by destruct w.
Qed.

Lemma delete_session_spec session_id w :
  delete_session session_id w
  = (Ok ("Session " +:+ session_id +:+ " cleared."),
     set_histories (delete session_id (conversation_histories w))
       (set_user_sessions (delete session_id (user_sessions w)) w)).
Proof.
  unfold delete_session.
  erewrite bind_ok by reflexivity.
  erewrite bind_ok by apply user_sessions_del_guarded.
  erewrite bind_ok by reflexivity.
  erewrite bind_ok by apply histories_del_guarded.
  reflexivity.
Qed.

(** C8: deleting a session never raises, also for an id that was never
    created; a read after it returns an empty history without raising; and a
    second delete returns the same message and leaves the state as the
    first one left it. *)
Theorem delete_session_idempotent session_id w :
  exists w1,
    delete_session session_id w
    = (Ok ("Session " +:+ session_id +:+ " cleared."), w1)
    /\ (exists l w2,
          get_conversation_history session_id w1 = (Ok l, w2)
          /\ deref w2 l = [])
    /\ delete_session session_id w1
       = (Ok ("Session " +:+ session_id +:+ " cleared."), w1).
Proof.
  eexists. split; [apply delete_session_spec|]. split.
  - destruct (get_conversation_history_spec session_id
                (set_histories (delete session_id (conversation_histories w))
                   (set_user_sessions (delete session_id (user_sessions w)) w)))
      as (l & w2 & Hget & _ & Hitems & _).
    exists l, w2. split; [done|]. rewrite Hitems.
    unfold history_of; simpl. by rewrite lookup_delete_eq.
  - rewrite delete_session_spec. f_equal.
    unfold set_histories, set_user_sessions; simpl.
    by rewrite !delete_delete_eq.
Qed.

(** ** Retrieval *)

(** [get_context_documents] never raises and changes no state. *)
Lemma get_context_documents_spec E query w :
  get_context_documents E query w = (Ok (retrieved E query), w).
Proof.
  unfold get_context_documents, retrieved, try_except, bind, lift_result, ret.
  destruct (retriever E) as [f|]; [|done].
  by destruct (f query).
Qed.

Lemma retrieval_fails_nothing E query :
  retrieval_fails E query -> retrieved E query = ([], []).
Proof.
  unfold retrieved. intros [-> | (f & e & -> & ->)]; done.
Qed.

(** ** Prompt assembly *)

Lemma append_cons (x : ascii) (a b : string) :
  String x a +:+ b = String x (a +:+ b).
Proof. reflexivity. Qed.

Lemma append_assoc (a b c : string) : (a +:+ b) +:+ c = a +:+ (b +:+ c).
Proof.
  induction a as [|x a IH]; [done|]. by rewrite !append_cons, IH.
Qed.

Lemma append_empty_r (a : string) : a +:+ EmptyString = a.
Proof.
  induction a as [|x a IH]; [done|]. by rewrite append_cons, IH.
Qed.

Lemma foldl_render acc items :
  foldl (fun acc item => acc +:+ render_exchange item) acc items
  = acc +:+ foldr (fun item rest => render_exchange item +:+ rest) EmptyString items.
Proof.
  revert acc. induction items as [|x items IH]; intros acc; cbn [foldl foldr].
  - by rewrite append_empty_r.
  - by rewrite IH, append_assoc.
Qed.

Lemma conversation_context_spec history :
  conversation_context history
  = foldr (fun item rest => render_exchange item +:+ rest) EmptyString
      (drop (length history - 3) history).
Proof.
  unfold conversation_context, render_all. destruct history; [done|].
  by rewrite foldl_render.
Qed.

Lemma fallback_in_stream_prompt history query :
  occurs_in "No relevant context found." (stream_prompt history [] query).
Proof.
  unfold stream_prompt, template_body, context_block.
  eexists (persona +:+ key_guidelines +:+ "Previous Conversation:" +:+ Py.nl
           +:+ conversation_context history +:+ Py.nl +:+ Py.nl
           +:+ "Relevant Context:" +:+ Py.nl), _.
  rewrite !append_assoc. reflexivity.
Qed.

Lemma fallback_in_response_prompt history query :
  occurs_in "No relevant context found." (response_prompt history [] query).
Proof.
  unfold response_prompt, template_body, context_block.
  eexists (persona +:+ "Previous Conversation:" +:+ Py.nl
           +:+ conversation_context history +:+ Py.nl +:+ Py.nl
           +:+ "Relevant Context:" +:+ Py.nl), _.
  rewrite !append_assoc. reflexivity.
Qed.

Lemma join_separated sep first rest :
  Py.join sep (first :: rest)
  = first +:+ foldr (fun chunk acc => sep +:+ chunk +:+ acc) EmptyString rest.
Proof.
  revert first. induction rest as [|chunk rest IH]; intros first.
  - cbn [Py.join foldr]. by rewrite append_empty_r.
  - change (Py.join sep (first :: chunk :: rest))
      with (first +:+ sep +:+ Py.join sep (chunk :: rest)).
    by rewrite IH.
Qed.

(** C4: in both prompts (the streaming and the blocking one) the context
    block is the fallback phrase when no chunk was retrieved, and otherwise
    the first chunk text followed by every further chunk text after two
    line feeds; and the conversation block holds the renderings of the last
    three exchanges of the history at most, oldest first, each the text
    [User: ], the query, a line feed, the text [Assistant: ], the answer and
    two line feeds.  The line feed is written here as the character with
    code 10. *)
Theorem prompt_assembly (history : list Exchange) (chunks : list string)
    (query : string) :
  let lf := String "010" EmptyString in
  exists older recent context,
    history = older ++ recent
    /\ length recent = min 3 (length history)
    /\ context = match chunks with
                 | [] => "No relevant context found."
                 | first :: rest =>
                     first
                     +:+ foldr (fun chunk acc => lf +:+ lf +:+ chunk +:+ acc)
                           EmptyString rest
                 end
    /\ occurs_in "No relevant context found." (stream_prompt history [] query)
    /\ occurs_in "No relevant context found." (response_prompt history [] query)
    /\ let block :=
         foldr (fun item rest =>
                  "User: " +:+ user item +:+ lf
                  +:+ "Assistant: " +:+ assistant item +:+ lf +:+ lf
                  +:+ rest)
               EmptyString recent in
       let body :=
         "Previous Conversation:" +:+ lf +:+ block +:+ lf +:+ lf
         +:+ "Relevant Context:" +:+ lf +:+ context +:+ lf +:+ lf
         +:+ "Current User Query: " +:+ query +:+ lf +:+ lf
         +:+ "Please provide a helpful and accurate response:" in
       stream_prompt history chunks query = persona +:+ key_guidelines +:+ body
       /\ response_prompt history chunks query = persona +:+ body.
Proof.
  intros lf.
  exists (take (length history - 3) history), (drop (length history - 3) history).
  eexists. split; [by rewrite take_drop|].
  split; [rewrite length_drop; lia|].
  split; [reflexivity|].
  assert (Hblock :
    conversation_context history
    = foldr (fun item rest =>
               "User: " +:+ user item +:+ lf
               +:+ "Assistant: " +:+ assistant item +:+ lf +:+ lf
               +:+ rest)
            EmptyString (drop (length history - 3) history)).
  { rewrite conversation_context_spec.
    induction (drop (length history - 3) history) as [|x l IH];
      cbn [foldr]; [done|].
    rewrite IH. unfold render_exchange. by rewrite !append_assoc. }
  assert (Hcontext :
    context_block chunks
    = match chunks with
      | [] => "No relevant context found."
      | first :: rest =>
          first
          +:+ foldr (fun chunk acc => lf +:+ lf +:+ chunk +:+ acc)
                EmptyString rest
      end).
  { unfold context_block. destruct chunks as [|first rest]; [done|].
    rewrite join_separated. reflexivity. }
  split; [apply fallback_in_stream_prompt|].
  split; [apply fallback_in_response_prompt|].
  cbv zeta. unfold stream_prompt, response_prompt, template_body.
  rewrite Hblock, Hcontext. split; reflexivity.
Qed.

(** ** One turn *)

Section Turn.

Variable E : Env.
Variables query sid : string.

(** The lines of [stream_response] and of [get_response] from the read of
    the history to the model call: they raise only if the model call
    does, they send one prompt, and they change no history. *)
Lemma turn_prelude (build : list Exchange -> list string -> string -> string)
    {A} (k : list string -> string -> M A) w :
  let prompt := build (history_of w sid) (fst (retrieved E query)) query in
  exists w1,
    (forall s, history_of w1 s = history_of w s)
    /\ ticks w1 = ticks w
    /\ prompts_sent w1 = prompts_sent w ++ [prompt]
    /\ (let* history := get_conversation_history sid in
        let* (context_texts, srcs) := get_context_documents E query in
        let* items := list_items history in
        let* full_response := ainvoke E (build items context_texts query) in
        k srcs full_response) w
       = match llm_ainvoke E prompt with
         | Ok full_response => k (snd (retrieved E query)) full_response w1
         | Raise e => (Raise e, w1)
         end.
Proof.
  intros prompt.
  destruct (get_conversation_history_spec sid w)
    as (l & wg & Hget & _ & Hitems & Hsame & Ht & Hp & _).
  exists (log_prompt prompt wg).
  split; [intros s; rewrite <- Hsame; reflexivity|].
  split; [simpl; done|].
  split; [simpl; by rewrite Hp|].
  erewrite bind_ok by apply Hget.
  erewrite bind_ok by apply get_context_documents_spec.
  destruct (retrieved E query) as [context_texts srcs] eqn:Hr.
  erewrite bind_ok by reflexivity.
  rewrite Hitems. subst prompt. simpl.
  unfold bind, ainvoke.
  destruct (llm_ainvoke E _); reflexivity.
Qed.

(** The lines after the loop: they never raise. *)
Lemma stream_words_nil start_time srcs full streamed w1 :
  exists w2,
    stream_words E query sid start_time srcs full [] streamed w1
    = (Ok (EvComplete full srcs sid
             (time_time E (S (ticks w1)) - start_time)
             (now_isoformat E (S (S (ticks w1)))),
           GenLast), w2)
    /\ history_of w2 sid
       = Py.last_n 10 (history_of w1 sid
                       ++ [mkExchange query full (now_isoformat E (ticks w1))])
    /\ prompts_sent w2 = prompts_sent w1.
Proof.
  destruct (update_conversation_history_spec E sid query full w1)
    as (wu & Hupd & Hh & Ht & Hp).
  exists (tick (tick wu)). split; [|split; [apply Hh|apply Hp]].
  unfold stream_words.
  erewrite bind_ok by apply Hupd.
  unfold bind, read_time, read_now, ret. simpl. by rewrite Ht.
Qed.

(** [stream_response] up to its first [yield]: the model call decides
    between the loop over the words and the error event. *)
Lemma stream_begin_spec w :
  let prompt :=
    stream_prompt (history_of w sid) (fst (retrieved E query)) query in
  exists w1,
    (forall s, history_of w1 s = history_of w s)
    /\ ticks w1 = S (ticks w)
    /\ prompts_sent w1 = prompts_sent w ++ [prompt]
    /\ stream_begin E query sid w
       = match llm_ainvoke E prompt with
         | Ok full =>
             stream_words E query sid (time_time E (ticks w))
               (snd (retrieved E query)) full (Py.split full) EmptyString w1
         | Raise _ =>
             (Ok (EvError apology [] sid (now_isoformat E (S (ticks w))),
                  GenLast), tick w1)
         end.
Proof.
  intros prompt.
  destruct (turn_prelude stream_prompt
              (fun srcs full_response =>
                 stream_words E query sid (time_time E (ticks w)) srcs
                   full_response (Py.split full_response) EmptyString)
              (tick w))
    as (w1 & Hsame & Ht & Hp & Hrun).
  change (history_of (tick w) sid) with (history_of w sid) in Hrun, Hp.
  exists w1. split; [intros s; apply (Hsame s)|].
  split; [apply Ht|]. split; [apply Hp|].
  unfold stream_begin. erewrite bind_ok by reflexivity.
  unfold try_except. rewrite Hrun. fold prompt.
  destruct (llm_ainvoke E prompt) as [full|e].
  - destruct (Py.split full) as [|word rest]; [|reflexivity].
    destruct (stream_words_nil (time_time E (ticks w))
                (snd (retrieved E query)) full EmptyString w1)
      as (w2 & -> & _). reflexivity.
  - unfold stream_failed, bind, read_now, ret. simpl in Ht. by rewrite Ht.
Qed.

(** Draining the generator from a suspension inside the loop: one
    partial event for each word left, seen in the world [w1] the generator
    was suspended in, then the update of the history and the complete
    event. *)
Lemma async_for_partial start_time srcs full :
  forall rest streamed fuel w1,
    length rest + 2 <= fuel ->
    exists w2,
      async_for E fuel
        (GenPartial query sid start_time srcs full rest streamed) w1
      = (map (fun ev => (ev, w1)) (partial_events srcs sid rest streamed)
         ++ [(EvComplete full srcs sid
                (time_time E (S (ticks w1)) - start_time)
                (now_isoformat E (S (S (ticks w1)))), w2)],
         Exhausted, w2)
      /\ history_of w2 sid
         = Py.last_n 10 (history_of w1 sid
                         ++ [mkExchange query full (now_isoformat E (ticks w1))])
      /\ prompts_sent w2 = prompts_sent w1.
Proof.
  induction rest as [|word rest IH]; intros streamed fuel w1 Hfuel.
  - destruct fuel as [|[|fuel]]; simpl in Hfuel; try lia.
    destruct (stream_words_nil start_time srcs full streamed w1)
      as (w2 & Hfin & Hh & Hp).
    exists w2. split; [|by split].
    cbn [async_for anext]. unfold try_except, bind at 1. rewrite Hfin.
    reflexivity.
  - destruct fuel as [|fuel]; simpl in Hfuel; [lia|].
    destruct (IH (streamed +:+ word +:+ " ") fuel w1 ltac:(lia))
      as (w2 & Hrun & Hh & Hp).
    exists w2. split; [|by split].
    cbn [async_for anext stream_words]. unfold try_except, bind, ret.
    rewrite Hrun. reflexivity.
Qed.

(** A whole successful streaming call. *)
Lemma stream_succeeds w full :
  llm_ainvoke E (stream_prompt (history_of w sid) (fst (retrieved E query)) query)
  = Ok full ->
  forall fuel,
    length (Py.split full) + 2 <= fuel ->
    exists w1 w2,
      async_for E fuel (stream_response query sid) w
      = (map (fun ev => (ev, w1))
           (partial_events (snd (retrieved E query)) sid (Py.split full) EmptyString)
         ++ [(EvComplete full (snd (retrieved E query)) sid
                (time_time E (ticks w + 2) - time_time E (ticks w))
                (now_isoformat E (ticks w + 3)), w2)],
         Exhausted, w2)
      /\ (forall s, history_of w1 s = history_of w s)
      /\ history_of w2 sid
         = Py.last_n 10 (history_of w sid
                         ++ [mkExchange query full (now_isoformat E (S (ticks w)))])
      /\ prompts_sent w2
         = prompts_sent w
           ++ [stream_prompt (history_of w sid) (fst (retrieved E query)) query].
Proof.
  intros Hllm fuel Hfuel.
  destruct (stream_begin_spec w) as (w1 & Hsame & Ht & Hp & Hbegin).
  rewrite Hllm in Hbegin.
  exists w1.
  destruct fuel as [|fuel]; [lia|].
  cbn [async_for stream_response anext]. unfold bind at 1. rewrite Hbegin.
  destruct (Py.split full) as [|word rest] eqn:Hwords.
  - destruct (stream_words_nil (time_time E (ticks w))
                (snd (retrieved E query)) full EmptyString w1)
      as (w2 & Hfin & Hh & Hp2).
    exists w2. rewrite Hfin.
    destruct fuel as [|fuel]; [simpl in Hfuel; lia|].
    cbn [async_for anext ret partial_events map app]. unfold ret.
    simpl in Ht. rewrite Ht.
    replace (ticks w + 2) with (S (S (ticks w))) by lia.
    replace (ticks w + 3) with (S (S (S (ticks w)))) by lia.
    split; [reflexivity|].
    split; [intros s; apply Hsame|].
    split; [by rewrite Hh, (Hsame sid), Ht|].
    by rewrite Hp2, Hp.
  - cbn [stream_words]. unfold ret.
    destruct (async_for_partial (time_time E (ticks w))
                (snd (retrieved E query)) full rest
                (EmptyString +:+ word +:+ " ") fuel w1
                ltac:(simpl in Hfuel; lia))
      as (w2 & Hrun2 & Hh & Hp2).
    exists w2. rewrite Hrun2.
    simpl in Ht. rewrite Ht.
    replace (ticks w + 2) with (S (S (ticks w))) by lia.
    replace (ticks w + 3) with (S (S (S (ticks w)))) by lia.
    split; [reflexivity|].
    split; [intros s; apply Hsame|].
    split; [by rewrite Hh, (Hsame sid), Ht|].
    by rewrite Hp2, Hp.
Qed.

(** A streaming call whose model call raises: the error event and
    nothing else, and no history changes. *)
Lemma stream_fails w e :
  llm_ainvoke E (stream_prompt (history_of w sid) (fst (retrieved E query)) query)
  = Raise e ->
  exists w1,
    (forall fuel,
       2 <= fuel ->
       async_for E fuel (stream_response query sid) w
       = ([(EvError apology [] sid (now_isoformat E (S (ticks w))), w1)],
          Exhausted, w1))
    /\ async_for E 1 (stream_response query sid) w
       = ([(EvError apology [] sid (now_isoformat E (S (ticks w))), w1)],
          Suspended GenLast, w1)
    /\ (forall s, history_of w1 s = history_of w s)
    /\ prompts_sent w1
       = prompts_sent w
         ++ [stream_prompt (history_of w sid) (fst (retrieved E query)) query].
Proof.
  intros Hllm.
  destruct (stream_begin_spec w) as (w1 & Hsame & Ht & Hp & Hbegin).
  rewrite Hllm in Hbegin.
  exists (tick w1).
  split; [|split; [|split]].
  - intros [|[|fuel]] Hfuel; try lia.
    cbn [async_for stream_response anext]. unfold bind at 1.
    rewrite Hbegin. reflexivity.
  - cbn [async_for stream_response anext]. unfold bind at 1.
    rewrite Hbegin. reflexivity.
  - intros s. apply (Hsame s).
  - apply Hp.
Qed.

(** A blocking call whose model call raises. *)
Lemma get_response_fails w e :
  llm_ainvoke E (response_prompt (history_of w sid) (fst (retrieved E query)) query)
  = Raise e ->
  exists w1,
    get_response E query sid w
    = (Ok (mkResponse apology [] sid (now_isoformat E (S (ticks w)))
             (time_time E (S (S (ticks w))) - time_time E (ticks w))), w1)
    /\ (forall s, history_of w1 s = history_of w s)
    /\ prompts_sent w1
       = prompts_sent w
         ++ [response_prompt (history_of w sid) (fst (retrieved E query)) query].
Proof.
  intros Hllm.
  destruct (turn_prelude response_prompt
              (fun srcs full_response =>
                 update_conversation_history E sid query full_response ;;
                 let* end_time := read_time E in
                 let* now := read_now E in
                 ret (mkResponse full_response srcs sid now
                        (end_time - time_time E (ticks w))))
              (tick w))
    as (w1 & Hsame & Ht & Hp & Hrun).
  change (history_of (tick w) sid) with (history_of w sid) in Hrun, Hp.
  rewrite Hllm in Hrun.
  exists (tick (tick w1)).
  split; [|split; [intros s; apply (Hsame s)|apply Hp]].
  unfold get_response. erewrite bind_ok by reflexivity.
  unfold try_except. rewrite Hrun.
  unfold bind, read_now, read_time, ret. simpl in *. by rewrite Ht.
Qed.

(** A blocking call whose model call answers. *)
Lemma get_response_succeeds w full :
  llm_ainvoke E (response_prompt (history_of w sid) (fst (retrieved E query)) query)
  = Ok full ->
  exists w2,
    get_response E query sid w
    = (Ok (mkResponse full (snd (retrieved E query)) sid
             (now_isoformat E (ticks w + 3))
             (time_time E (ticks w + 2) - time_time E (ticks w))), w2)
    /\ history_of w2 sid
       = Py.last_n 10 (history_of w sid
                       ++ [mkExchange query full (now_isoformat E (S (ticks w)))])
    /\ prompts_sent w2
       = prompts_sent w
         ++ [response_prompt (history_of w sid) (fst (retrieved E query)) query].
Proof.
  intros Hllm.
  destruct (turn_prelude response_prompt
              (fun srcs full_response =>
                 update_conversation_history E sid query full_response ;;
                 let* end_time := read_time E in
                 let* now := read_now E in
                 ret (mkResponse full_response srcs sid now
                        (end_time - time_time E (ticks w))))
              (tick w))
    as (w1 & Hsame & Ht & Hp & Hrun).
  change (history_of (tick w) sid) with (history_of w sid) in Hrun, Hp.
  rewrite Hllm in Hrun.
  destruct (update_conversation_history_spec E sid query full w1)
    as (wu & Hupd & Hh & Htu & Hpu).
  exists (tick (tick wu)).
  split; [|split].
  - unfold get_response. erewrite bind_ok by reflexivity.
    unfold try_except. rewrite Hrun.
    erewrite bind_ok by apply Hupd.
    unfold bind, read_now, read_time, ret. simpl in *. rewrite Htu, Ht.
    replace (ticks w + 2) with (S (S (ticks w))) by lia.
    replace (ticks w + 3) with (S (S (S (ticks w)))) by lia.
    reflexivity.
  - simpl in *. change (history_of (tick (tick wu)) sid) with (history_of wu sid).
    by rewrite Hh, (Hsame sid), Ht.
  - simpl in *. by rewrite Hpu, Hp.
Qed.

End Turn.

(** ** The response streamer *)

(** C2: when the model answers ["Hello world test"], the stream carries
    three partial events, one for each word followed by a space, whose
    cumulative texts are ["Hello"], ["Hello world"] and ["Hello world test"],
    then one complete event with the answer as the model gave it, and ends. *)
Theorem hello_world_test_stream E w query sid fuel :
  llm_ainvoke E (stream_prompt (history_of w sid) (fst (retrieved E query)) query)
  = Ok "Hello world test" ->
  5 <= fuel ->
  let srcs := snd (retrieved E query) in
  let run := async_for E fuel (stream_response query sid) w in
  events_of run
  = [EvPartial "Hello " "Hello" srcs sid;
     EvPartial "world " "Hello world" srcs sid;
     EvPartial "test " "Hello world test" srcs sid;
     EvComplete "Hello world test" srcs sid
       (time_time E (ticks w + 2) - time_time E (ticks w))
       (now_isoformat E (ticks w + 3))]
  /\ ending_of run = Exhausted.
Proof.
  intros Hllm Hfuel srcs run.
  destruct (stream_succeeds E query sid w _ Hllm fuel) as (w1 & w2 & Hrun & _).
  { vm_compute. lia. }
  subst run. rewrite Hrun. split; reflexivity.
Qed.

Lemma hello_world_test_stream_witness :
  let run := async_for env_ok 5 (stream_response "hi" "s1") empty_world in
  events_of run
  = [EvPartial "Hello " "Hello" ["Page 3 - kb.pdf"] "s1";
     EvPartial "world " "Hello world" ["Page 3 - kb.pdf"] "s1";
     EvPartial "test " "Hello world test" ["Page 3 - kb.pdf"] "s1";
     EvComplete "Hello world test" ["Page 3 - kb.pdf"] "s1" 2 "t3"]
  /\ ending_of run = Exhausted.
Proof.
  apply (hello_world_test_stream env_ok empty_world "hi" "s1" 5).
  - reflexivity.
  - lia.
Defined.

Lemma partial_events_length srcs sid words streamed :
  length (partial_events srcs sid words streamed) = length words.
Proof.
  revert streamed. induction words as [|word rest IH]; intros streamed;
    cbn [partial_events length]; [done|].
  by rewrite IH.
Qed.

Lemma partial_events_partial srcs sid words streamed :
  Forall (fun ev => is_partial ev = true) (partial_events srcs sid words streamed).
Proof.
  revert streamed. induction words as [|word rest IH]; intros streamed;
    cbn [partial_events]; constructor; [done|apply IH].
Qed.

(** C7: in a streaming call that succeeds, every partial event is received
    while the session's history is still what it was before the call, and
    the complete event is received with the history already extended by the
    exchange that records the model's full answer. *)
Theorem history_updated_before_complete E w query sid full fuel :
  llm_ainvoke E (stream_prompt (history_of w sid) (fst (retrieved E query)) query)
  = Ok full ->
  length (Py.split full) + 2 <= fuel ->
  exists partials last_event wc,
    async_for E fuel (stream_response query sid) w
    = (partials ++ [(last_event, wc)], Exhausted, wc)
    /\ length partials = length (Py.split full)
    /\ Forall (fun seen => is_partial (fst seen) = true
                           /\ history_of (snd seen) sid = history_of w sid)
              partials
    /\ last_event
       = EvComplete full (snd (retrieved E query)) sid
           (time_time E (ticks w + 2) - time_time E (ticks w))
           (now_isoformat E (ticks w + 3))
    /\ history_of wc sid
       = drop (length (history_of w sid) + 1 - 10)
           (history_of w sid
            ++ [mkExchange query full (now_isoformat E (S (ticks w)))]).
Proof.
  intros Hllm Hfuel.
  destruct (stream_succeeds E query sid w _ Hllm fuel Hfuel)
    as (w1 & w2 & Hrun & Hsame & Hh & _).
  eexists _, _, w2. split; [apply Hrun|].
  split.
  { by rewrite length_map, partial_events_length. }
  split.
  { apply Forall_map. eapply Forall_impl; [apply partial_events_partial|].
    intros ev Hev. simpl. split; [done|apply Hsame]. }
  split; [reflexivity|].
  rewrite Hh. unfold Py.last_n. by rewrite length_app.
Qed.

Lemma history_updated_before_complete_witness :
  exists partials last_event wc,
    async_for env_ok 5 (stream_response "hi" "s1") empty_world
    = (partials ++ [(last_event, wc)], Exhausted, wc)
    /\ length partials = length (Py.split "Hello world test")
    /\ Forall (fun seen => is_partial (fst seen) = true
                           /\ history_of (snd seen) "s1" = history_of empty_world "s1")
              partials
    /\ last_event
       = EvComplete "Hello world test" (snd (retrieved env_ok "hi")) "s1"
           (time_time env_ok (ticks empty_world + 2) - time_time env_ok (ticks empty_world))
           (now_isoformat env_ok (ticks empty_world + 3))
    /\ history_of wc "s1"
       = drop (length (history_of empty_world "s1") + 1 - 10)
           (history_of empty_world "s1"
            ++ [mkExchange "hi" "Hello world test"
                  (now_isoformat env_ok (S (ticks empty_world)))]).
Proof.
  apply (history_updated_before_complete env_ok empty_world "hi" "s1"
           "Hello world test" 5).
  - reflexivity.
  - vm_compute. lia.
Defined.

(** ** Failures *)

(** C3: when the model call of a streaming operation raises, the stream
    carries exactly one event, the error event, and ends; when the model
    call of a blocking operation raises, the operation returns the apology
    with no sources; neither lets the exception out.  Each half rests on the
    failure of its own call only. *)
Theorem generation_failure_is_reported E w query sid fuel :
  (forall e,
     llm_ainvoke E
       (stream_prompt (history_of w sid) (fst (retrieved E query)) query)
     = Raise e ->
     2 <= fuel ->
     let run := async_for E fuel (stream_response query sid) w in
     events_of run
     = [EvError "I apologize, but I'm experiencing technical difficulties. Please try again in a moment."
          [] sid (now_isoformat E (S (ticks w)))]
     /\ ending_of run = Exhausted)
  /\ (forall e,
        llm_ainvoke E
          (response_prompt (history_of w sid) (fst (retrieved E query)) query)
        = Raise e ->
        exists r w',
          get_response E query sid w = (Ok r, w')
          /\ response r
             = "I apologize, but I'm experiencing technical difficulties. Please try again in a moment."
          /\ sources r = []).
Proof.
  split.
  - intros e Hs Hfuel.
    destruct (stream_fails E query sid w e Hs) as (w1 & Hrun & _).
    cbv zeta. rewrite (Hrun fuel Hfuel). split; reflexivity.
  - intros e Hb.
    destruct (get_response_fails E query sid w e Hb) as (w1 & Hrun & _).
    eexists _, w1. split; [apply Hrun|]. split; reflexivity.
Qed.

Lemma generation_failure_is_reported_witness :
  (let run :=
     async_for env_stream_call_fails 2 (stream_response "hi" "s1") empty_world in
   events_of run
   = [EvError "I apologize, but I'm experiencing technical difficulties. Please try again in a moment."
        [] "s1" "t1"]
   /\ ending_of run = Exhausted)
  /\ (exists r w',
        get_response env_blocking_call_fails "hi" "s1" empty_world = (Ok r, w')
        /\ response r
           = "I apologize, but I'm experiencing technical difficulties. Please try again in a moment."
        /\ sources r = []).
Proof.
  split.
  - apply (proj1 (generation_failure_is_reported env_stream_call_fails
                    empty_world "hi" "s1" 2) (OtherError "rate limit")).
    + reflexivity.
    + lia.
  - apply (proj2 (generation_failure_is_reported env_blocking_call_fails
                    empty_world "hi" "s1" 2) (OtherError "rate limit")).
    reflexivity.
Defined.

(** C5: when retrieval fails, [get_context_documents] returns empty context
    and empty sources instead of raising, and the turn goes on: the prompt
    with the fallback phrase is sent to the model, the blocking operation
    returns the model's answer (the apology only if the model call itself
    raises) with no sources, and the first event of the stream is an error
    event only if the model call raises. *)
Theorem retrieval_failure_degrades E w query sid :
  retrieval_fails E query ->
  get_context_documents E query w = (Ok ([], []), w)
  /\ (exists r w',
        get_response E query sid w = (Ok r, w')
        /\ sources r = []
        /\ prompts_sent w'
           = prompts_sent w ++ [response_prompt (history_of w sid) [] query]
        /\ response r
           = match llm_ainvoke E (response_prompt (history_of w sid) [] query) with
             | Ok full => full
             | Raise _ => apology
             end)
  /\ (exists ev g w',
        anext E (stream_response query sid) w = (Ok (Some ev, g), w')
        /\ prompts_sent w'
           = prompts_sent w ++ [stream_prompt (history_of w sid) [] query]
        /\ is_error ev
           = match llm_ainvoke E (stream_prompt (history_of w sid) [] query) with
             | Ok _ => false
             | Raise _ => true
             end)
  /\ occurs_in "No relevant context found."
       (response_prompt (history_of w sid) [] query)
  /\ occurs_in "No relevant context found."
       (stream_prompt (history_of w sid) [] query).
Proof.
  intros Hfail. pose proof (retrieval_fails_nothing E query Hfail) as Hnone.
  split; [by rewrite get_context_documents_spec, Hnone|].
  split; [|split; [|split;
    [apply fallback_in_response_prompt|apply fallback_in_stream_prompt]]].
  - destruct (llm_ainvoke E (response_prompt (history_of w sid) [] query))
      as [full|e] eqn:Hllm.
    + destruct (get_response_succeeds E query sid w full) as (w2 & Hrun & _ & Hp).
      { by rewrite Hnone. }
      rewrite Hnone in Hrun, Hp. eexists _, w2. split; [apply Hrun|]. by simpl.
    + destruct (get_response_fails E query sid w e) as (w1 & Hrun & _ & Hp).
      { by rewrite Hnone. }
      rewrite Hnone in Hp. eexists _, w1. split; [apply Hrun|]. by simpl.
  - destruct (stream_begin_spec E query sid w) as (w1 & _ & _ & Hp & Hbegin).
    rewrite Hnone in Hp, Hbegin. simpl fst in *. simpl snd in *.
    cbn [stream_response anext]. unfold bind at 1. rewrite Hbegin.
    destruct (llm_ainvoke E (stream_prompt (history_of w sid) [] query))
      as [full|e].
    + destruct (Py.split full) as [|word rest].
      * destruct (stream_words_nil E query sid (time_time E (ticks w)) []
                    full EmptyString w1) as (w2 & -> & _ & Hp2).
        eexists _, _, w2. split; [reflexivity|]. split; [by rewrite Hp2|done].
      * eexists _, _, w1. split; [reflexivity|]. by split.
    + eexists _, _, (tick w1). split; [reflexivity|]. by split.
Qed.

Lemma retrieval_failure_degrades_witness :
  get_context_documents env_index_down "hi" empty_world = (Ok ([], []), empty_world)
  /\ (exists r w',
        get_response env_index_down "hi" "s1" empty_world = (Ok r, w')
        /\ sources r = []
        /\ prompts_sent w'
           = prompts_sent empty_world
             ++ [response_prompt (history_of empty_world "s1") [] "hi"]
        /\ response r
           = match llm_ainvoke env_index_down
                     (response_prompt (history_of empty_world "s1") [] "hi") with
             | Ok full => full
             | Raise _ => apology
             end)
  /\ (exists ev g w',
        anext env_index_down (stream_response "hi" "s1") empty_world
        = (Ok (Some ev, g), w')
        /\ prompts_sent w'
           = prompts_sent empty_world
             ++ [stream_prompt (history_of empty_world "s1") [] "hi"]
        /\ is_error ev
           = match llm_ainvoke env_index_down
                     (stream_prompt (history_of empty_world "s1") [] "hi") with
             | Ok _ => false
             | Raise _ => true
             end)
  /\ occurs_in "No relevant context found."
       (response_prompt (history_of empty_world "s1") [] "hi")
  /\ occurs_in "No relevant context found."
       (stream_prompt (history_of empty_world "s1") [] "hi").
Proof.
  apply (retrieval_failure_degrades env_index_down empty_world "hi" "s1").
  right. eexists _, _. split; reflexivity.
Defined.

Lemma get_conversation_history_shape session_id w :
  (exists l,
     conversation_histories w !! session_id = Some l
     /\ get_conversation_history session_id w = (Ok l, w))
  \/ (conversation_histories w !! session_id = None
      /\ get_conversation_history session_id w
         = (Ok (fresh (dom (lists w))),
            set_histories
              (<[session_id := fresh (dom (lists w))]> (conversation_histories w))
              (set_lists (<[fresh (dom (lists w)) := []]> (lists w)) w))).
Proof.
  unfold get_conversation_history, bind, histories_contains, histories_get.
  destruct (conversation_histories w !! session_id) as [l|] eqn:Hl.
  - left. exists l. split; [done|].
    rewrite bool_decide_true by eauto. simpl. by rewrite Hl.
  - right. split; [done|].
    rewrite bool_decide_false by (intros [? ?]; discriminate). simpl.
    by rewrite lookup_insert_eq.
Qed.

Lemma get_conversation_history_registers sid w :
  only_registers sid w (snd (get_conversation_history sid w)).
Proof.
  unfold only_registers.
  destruct (get_conversation_history_shape sid w)
    as [(l & Hl & ->)|[Hnone ->]]; cbn [snd].
  - by rewrite Hl.
  - rewrite Hnone. split; [done|].
    exists (fresh (dom (lists w))). split; [|done].
    apply not_elem_of_dom, is_fresh.
Qed.

Lemma only_registers_same_store sid (w w1 w2 : World) :
  conversation_histories w2 = conversation_histories w1 ->
  lists w2 = lists w1 ->
  user_sessions w2 = user_sessions w1 ->
  only_registers sid w w1 -> only_registers sid w w2.
Proof.
  unfold only_registers. intros -> -> ->. done.
Qed.

(** Registering a session changes what no session reads as its history. *)
Lemma only_registers_history sid w w' :
  only_registers sid w w' -> forall s, history_of w' s = history_of w s.
Proof.
  intros [_ Hreg] s. unfold history_of, deref.
  destruct (conversation_histories w !! sid) as [l0|] eqn:Hsid.
  - destruct Hreg as [-> ->]. done.
  - destruct Hreg as (l & Hl & -> & ->).
    destruct (decide (sid = s)) as [<-|Hne].
    + by rewrite lookup_insert_eq, Hsid, lookup_insert_eq.
    + rewrite lookup_insert_ne by done.
      destruct (conversation_histories w !! s) as [ls|]; [|done].
      destruct (decide (l = ls)) as [<-|Hne'].
      * by rewrite lookup_insert_eq, Hl.
      * by rewrite lookup_insert_ne.
Qed.

(** The lines of a turn up to the model call, when that call raises: the
    world is the one [get_conversation_history] left, with the prompt
    noted. *)
Lemma prelude_raises E query sid
    (build : list Exchange -> list string -> string -> string)
    {A} (k : list string -> string -> M A) w e :
  llm_ainvoke E (build (history_of w sid) (fst (retrieved E query)) query)
  = Raise e ->
  (let* history := get_conversation_history sid in
   let* (context_texts, srcs) := get_context_documents E query in
   let* items := list_items history in
   let* full_response := ainvoke E (build items context_texts query) in
   k srcs full_response) w
  = (Raise e,
     log_prompt (build (history_of w sid) (fst (retrieved E query)) query)
       (snd (get_conversation_history sid w))).
Proof.
  intros Hllm.
  destruct (get_conversation_history_spec sid w)
    as (l & wg & Hget & _ & Hitems & _).
  rewrite Hget. cbn [snd].
  erewrite bind_ok by apply Hget.
  erewrite bind_ok by apply get_context_documents_spec.
  destruct (retrieved E query) as [context_texts srcs] eqn:Hr.
  erewrite bind_ok by reflexivity.
  rewrite Hitems. cbn [fst] in Hllm.
  unfold bind, ainvoke. by rewrite Hllm.
Qed.

Lemma get_response_fails_registers E query sid w e :
  llm_ainvoke E (response_prompt (history_of w sid) (fst (retrieved E query)) query)
  = Raise e ->
  only_registers sid w (snd (get_response E query sid w)).
Proof.
  intros Hllm.
  pose proof (prelude_raises E query sid response_prompt
                (fun srcs full_response =>
                   update_conversation_history E sid query full_response ;;
                   let* end_time := read_time E in
                   let* now := read_now E in
                   ret (mkResponse full_response srcs sid now
                          (end_time - time_time E (ticks w))))
                (tick w) e Hllm) as Hrun.
  unfold get_response. erewrite bind_ok by reflexivity.
  unfold try_except. rewrite Hrun.
  eapply only_registers_same_store;
    [| | |apply (get_conversation_history_registers sid (tick w))]; reflexivity.
Qed.

Lemma stream_begin_fails_registers E query sid w e :
  llm_ainvoke E (stream_prompt (history_of w sid) (fst (retrieved E query)) query)
  = Raise e ->
  exists ev w1,
    stream_begin E query sid w = (Ok (ev, GenLast), w1)
    /\ only_registers sid w w1.
Proof.
  intros Hllm.
  pose proof (prelude_raises E query sid stream_prompt
                (fun srcs full_response =>
                   stream_words E query sid (time_time E (ticks w)) srcs
                     full_response (Py.split full_response) EmptyString)
                (tick w) e Hllm) as Hrun.
  unfold stream_begin. erewrite bind_ok by reflexivity.
  unfold try_except. rewrite Hrun.
  eexists _, _. split; [reflexivity|].
  eapply only_registers_same_store;
    [| | |apply (get_conversation_history_registers sid (tick w))]; reflexivity.
Qed.

(** C10: a turn whose model call raises appends no exchange: every session
    reads the same history afterwards as before.  This holds after a
    blocking operation whose call raised, and during and after a streaming
    operation whose call raised, however far the stream is consumed.  The
    store itself is not always left as it was: a failed turn of a session
    the dictionary does not know yet adds that session, bound to a new and
    empty list ([only_registers]); nothing else of the dictionary, of the
    lists or of [user_sessions] changes, and a stream that is never resumed
    changes nothing at all. *)
Theorem failed_turn_keeps_history E w query sid fuel :
  (forall e,
     llm_ainvoke E
       (response_prompt (history_of w sid) (fst (retrieved E query)) query)
     = Raise e ->
     let w' := snd (get_response E query sid w) in
     (forall s, history_of w' s = history_of w s)
     /\ only_registers sid w w')
  /\ (forall e,
        llm_ainvoke E
          (stream_prompt (history_of w sid) (fst (retrieved E query)) query)
        = Raise e ->
        let run := async_for E fuel (stream_response query sid) w in
        (forall s, history_of (snd run) s = history_of w s)
        /\ Forall (fun seen =>
                     (forall s, history_of (snd seen) s = history_of w s)
                     /\ only_registers sid w (snd seen))
                  (fst (fst run))
        /\ match fuel with
           | 0 => snd run = w
           | S _ => only_registers sid w (snd run)
           end).
Proof.
  split.
  - intros e Hb w'.
    pose proof (get_response_fails_registers E query sid w e Hb) as Hreg.
    split; [by apply (only_registers_history sid)|done].
  - intros e Hs run. subst run.
    destruct (stream_begin_fails_registers E query sid w e Hs)
      as (ev & w1 & Hbegin & Hreg).
    pose proof (only_registers_history sid w w1 Hreg) as Hsame.
    destruct fuel as [|[|fuel]].
    + simpl. split; [done|]. split; [constructor|done].
    + cbn [async_for stream_response anext]. unfold bind at 1 2 3.
      rewrite Hbegin. simpl. split; [done|]. split; [|done].
      by constructor.
    + cbn [async_for stream_response anext]. unfold bind at 1 2 3.
      rewrite Hbegin. simpl. split; [done|]. split; [|done].
      by constructor.
Qed.

Lemma failed_turn_keeps_history_witness :
  (let w' := snd (get_response env_blocking_call_fails "hi" "s1" empty_world) in
   (forall s, history_of w' s = history_of empty_world s)
   /\ only_registers "s1" empty_world w')
  /\ (let run :=
        async_for env_stream_call_fails 3 (stream_response "hi" "s1") empty_world in
      (forall s, history_of (snd run) s = history_of empty_world s)
      /\ Forall (fun seen =>
                   (forall s, history_of (snd seen) s = history_of empty_world s)
                   /\ only_registers "s1" empty_world (snd seen))
                (fst (fst run))
      /\ only_registers "s1" empty_world (snd run)).
Proof.
  split.
  - apply (proj1 (failed_turn_keeps_history env_blocking_call_fails
                    empty_world "hi" "s1" 3) (OtherError "rate limit")).
    reflexivity.
  - apply (proj2 (failed_turn_keeps_history env_stream_call_fails
                    empty_world "hi" "s1" 3) (OtherError "rate limit")).
    reflexivity.
Defined.

(** C6, as stated, fails: the retriever raises, and the stream carries a
    partial and a complete event with the model's answer and no error
    event. *)
Lemma retrieval_exception_gives_no_error_event :
  retrieval_fails env_index_down "hi"
  /\ events_of (async_for env_index_down 3 (stream_response "hi" "s1") empty_world)
     = [EvPartial "Hi " "Hi" [] "s1"; EvComplete "Hi" [] "s1" 2 "t3"]
  /\ ending_of (async_for env_index_down 3 (stream_response "hi" "s1") empty_world)
     = Exhausted
  /\ ~ (exists stamp,
          events_of (async_for env_index_down 3 (stream_response "hi" "s1") empty_world)
          = [EvError apology [] "s1" stamp]).
Proof.
  split; [right; eexists _, _; split; reflexivity|].
  split; [reflexivity|]. split; [reflexivity|].
  intros [stamp Hev]. vm_compute in Hev. discriminate Hev.
Qed.

Lemma error_count_partial_events srcs sid words streamed evs :
  error_count (partial_events srcs sid words streamed ++ evs) = error_count evs.
Proof.
  revert streamed. induction words as [|word rest IH]; intros streamed; [done|].
  apply IH.
Qed.

(** C6, amended: an exception of the retrieval step never leaves
    [get_context_documents], which then returns empty context and empty
    sources; the stream is decided by the model call alone.  If that call
    raises, the stream carries exactly one event, the error event with the
    fixed message and no sources, and ends.  If it answers, the stream
    carries the partial events and the complete event, no error event, and
    ends. *)
Theorem stream_error_event_policy E w query sid k :
  let prompt := stream_prompt (history_of w sid) (fst (retrieved E query)) query in
  let words :=
    match llm_ainvoke E prompt with Ok full => Py.split full | Raise _ => [] end in
  let run := async_for E (length words + 2 + k) (stream_response query sid) w in
  get_context_documents E query w
  = (Ok match retriever E with
        | None => ([], [])
        | Some get_relevant_documents =>
            match get_relevant_documents query with
            | Ok docs => (map page_content docs, map source_info docs)
            | Raise _ => ([], [])
            end
        end, w)
  /\ ending_of run = Exhausted
  /\ events_of run
     = match llm_ainvoke E prompt with
       | Raise _ =>
           [EvError "I apologize, but I'm experiencing technical difficulties. Please try again in a moment."
              [] sid (now_isoformat E (S (ticks w)))]
       | Ok full =>
           partial_events (snd (retrieved E query)) sid (Py.split full) EmptyString
           ++ [EvComplete full (snd (retrieved E query)) sid
                 (time_time E (ticks w + 2) - time_time E (ticks w))
                 (now_isoformat E (ticks w + 3))]
       end
  /\ error_count (events_of run)
     = match llm_ainvoke E prompt with Raise _ => 1 | Ok _ => 0 end.
Proof.
  intros prompt words run.
  split; [apply get_context_documents_spec|].
  subst run words. destruct (llm_ainvoke E prompt) as [full|e] eqn:Hllm.
  - destruct (stream_succeeds E query sid w full Hllm
                (length (Py.split full) + 2 + k) ltac:(lia))
      as (w1 & w2 & -> & _).
    unfold events_of, ending_of. cbn [fst snd].
    rewrite map_app, map_map. cbn [map fst]. rewrite map_id.
    split; [done|]. split; [done|].
    by rewrite error_count_partial_events.
  - destruct (stream_fails E query sid w e Hllm) as (w1 & Hrun & _).
    rewrite (Hrun (length (@nil string) + 2 + k)) by (simpl; lia).
    split; [done|]. split; reflexivity.
Qed.

(** ** Ingestion *)

Lemma tag_splits_paths E collection splits :
  forall w, paths_loaded (snd (tag_splits E collection splits w)) = paths_loaded w.
Proof.
  induction splits as [|split rest IH]; intros w; [done|].
  cbn [tag_splits]. unfold bind at 1. unfold read_now at 1.
  unfold bind at 1. specialize (IH (tick w)).
  destruct (tag_splits E collection rest (tick w)) as [[tagged|e] w']; apply IH.
Qed.

Lemma add_batches_paths E bs :
  forall w, paths_loaded (snd (add_batches E bs w)) = paths_loaded w.
Proof.
  induction bs as [|batch rest IH]; intros w; [done|].
  cbn [add_batches]. unfold bind, add_documents.
  destruct (vectorstore_add_documents E batch); [|done].
  by rewrite IH.
Qed.

(** [add_documents_async] asks the loader for the path it is given, once,
    whatever happens afterwards. *)
Lemma add_documents_async_loads_given_path E path collection w :
  paths_loaded (snd (add_documents_async E path collection w))
  = paths_loaded w
    ++ [(if Py.endswith path ".pdf" then PyPDFLoader else DirectoryLoader, path)].
Proof.
  unfold add_documents_async, try_except.
  set (kind := if Py.endswith path ".pdf" then PyPDFLoader else DirectoryLoader).
  unfold bind at 1. unfold load at 1.
  destruct (loader_load E kind path) as [documents|e]; [|done].
  unfold bind at 1.
  pose proof (tag_splits_paths E collection (split_documents E documents)
                (log_load kind path w)) as Htag.
  destruct (tag_splits E collection (split_documents E documents)
              (log_load kind path w)) as [[splits|e] w1]; [|apply Htag].
  unfold bind at 1.
  pose proof (add_batches_paths E (Py.batches 50 splits) w1) as Hadd.
  destruct (add_batches E (Py.batches 50 splits) w1) as [[[]|e] w2];
    [|simpl in *; by rewrite Hadd, Htag].
  unfold bind, persist_if_supported, ret.
  destruct (vectorstore_persist E) as [[]|[msg|key|msg]];
    simpl in *; by rewrite Hadd, Htag.
Qed.

(** C9 at a concrete request: the route loads the path written in the
    code, not the one the request carries, and its result does not depend on
    the request's path. *)
Theorem upload_document_ignores_file_path :
  let request := mkDocumentUploadRequest "docs/handbook.pdf" "hr" in
  paths_loaded (snd (upload_document env_ok request empty_world))
  = [(PyPDFLoader,
      "C:/Users/Asus/OneDrive/Desktop/TMU-interns-ai-voice-agent-gpt3.5-version/data/sales_ai_knowledgebase.pdf")]
  /\ file_path request
     <> "C:/Users/Asus/OneDrive/Desktop/TMU-interns-ai-voice-agent-gpt3.5-version/data/sales_ai_knowledgebase.pdf"
  /\ (forall E w path path' collection,
        upload_document E (mkDocumentUploadRequest path collection) w
        = upload_document E (mkDocumentUploadRequest path' collection) w)
  /\ (forall E w r,
        paths_loaded (snd (upload_document E r w))
        = paths_loaded w ++ [(PyPDFLoader, upload_path)]).
Proof.
  split; [reflexivity|]. split; [discriminate|]. split; [reflexivity|].
  intros E w r. unfold upload_document.
  pose proof (add_documents_async_loads_given_path E upload_path
                (collection_name r) w) as Hload.
  unfold bind.
  destruct (add_documents_async E upload_path (collection_name r) w)
    as [[[]|e] w1]; exact Hload.
Qed.

(** * Further properties *)

(** ** The store of histories *)

Lemma update_conversation_history_shape E session_id q a w :
  exists l w1,
    get_conversation_history session_id w = (Ok l, w1)
    /\ let items := deref w1 l ++ [mkExchange q a (now_isoformat E (ticks w1))] in
       let w2 := set_lists (<[l := items]> (lists w1)) (tick w1) in
       update_conversation_history E session_id q a w
       = (Ok tt,
          if (10 <? length items)%nat then
            set_histories
              (<[session_id := fresh (dom (lists w2))]> (conversation_histories w2))
              (set_lists (<[fresh (dom (lists w2)) := Py.last_n 10 items]> (lists w2)) w2)
          else w2).
Proof.
  destruct (get_conversation_history_spec session_id w) as (l & w1 & Hget & _).
  exists l, w1. split; [done|]. intros items w2.
  unfold update_conversation_history.
  erewrite bind_ok by apply Hget.
  unfold bind, read_now, list_append, list_items.
  change (deref (set_lists
                   (<[l:=deref (tick w1) l
                          ++ [mkExchange q a (now_isoformat E (ticks w1))]]>
                      (lists (tick w1))) (tick w1)) l)
    with (default [] (<[l:=items]> (lists w1) !! l)).
  rewrite lookup_insert_eq.
  change (default [] (Some items)) with items.
  destruct (10 <? length items)%nat; reflexivity.
Qed.

Lemma fresh_not_allocated (h : gmap loc (list Exchange)) l :
  is_Some (h !! l) -> l <> fresh (dom h).
Proof.
  intros Hl ->. apply (is_fresh (dom h)). by apply elem_of_dom.
Qed.

Lemma get_conversation_history_store_ok session_id w :
  store_ok w -> store_ok (snd (get_conversation_history session_id w)).
Proof.
  intros [Halloc Hinj].
  destruct (get_conversation_history_shape session_id w)
    as [(l & Hl & ->)|[Hnone ->]]; [done|].
  simpl. split.
  - intros s l0. simpl. intros Hs.
    destruct (decide (session_id = s)) as [<-|Hne].
    + rewrite lookup_insert_eq in Hs. injection Hs as <-.
      rewrite lookup_insert_eq. eauto.
    + rewrite lookup_insert_ne in Hs by done.
      apply lookup_insert_is_Some'. right. eauto.
  - intros s1 s2 l0. simpl. intros H1 H2.
    destruct (decide (session_id = s1)) as [<-|Hne1];
      destruct (decide (session_id = s2)) as [<-|Hne2]; [done| | |].
    + rewrite lookup_insert_eq in H1. injection H1 as <-.
      rewrite lookup_insert_ne in H2 by done.
      exfalso. by eapply fresh_not_allocated; [eapply Halloc|].
    + rewrite lookup_insert_eq in H2. injection H2 as <-.
      rewrite lookup_insert_ne in H1 by done.
      exfalso. by eapply fresh_not_allocated; [eapply Halloc|].
    + rewrite lookup_insert_ne in H1, H2 by done. eauto.
Qed.

Lemma update_conversation_history_store_ok E session_id q a w :
  store_ok w ->
  store_ok (snd (update_conversation_history E session_id q a w)).
Proof.
  intros Hok.
  pose proof (get_conversation_history_store_ok session_id w Hok) as Hok1.
  destruct (get_conversation_history_spec session_id w)
    as (l0 & w0 & Hget0 & Hl0 & _).
  destruct (update_conversation_history_shape E session_id q a w)
    as (l & w1 & Hget & Hupd).
  rewrite Hget0 in Hget. injection Hget as <- <-.
  rewrite Hget0 in Hok1. simpl in Hok1, Hupd. rewrite Hupd. simpl.
  destruct Hok1 as [Halloc Hinj].
  set (items := deref w0 l0 ++ [mkExchange q a (now_isoformat E (ticks w0))]).
  assert (Halloc2 : forall s l,
            conversation_histories w0 !! s = Some l ->
            is_Some (<[l0:=items]> (lists w0) !! l)).
  { intros s l Hs. apply lookup_insert_is_Some'. right. eauto. }
  destruct (10 <? length items)%nat.
  - split; simpl.
    + intros s l Hs. destruct (decide (session_id = s)) as [<-|Hne].
      * rewrite lookup_insert_eq in Hs. injection Hs as <-.
        rewrite lookup_insert_eq. eauto.
      * rewrite lookup_insert_ne in Hs by done.
        apply lookup_insert_is_Some'. right. eauto.
    + intros s1 s2 l H1 H2.
      destruct (decide (session_id = s1)) as [<-|Hne1];
        destruct (decide (session_id = s2)) as [<-|Hne2]; [done| | |].
      * rewrite lookup_insert_eq in H1. injection H1 as <-.
        rewrite lookup_insert_ne in H2 by done.
        exfalso. by eapply fresh_not_allocated; [eapply Halloc2|].
      * rewrite lookup_insert_eq in H2. injection H2 as <-.
        rewrite lookup_insert_ne in H1 by done.
        exfalso. by eapply fresh_not_allocated; [eapply Halloc2|].
      * rewrite lookup_insert_ne in H1, H2 by done. eauto.
  - split; simpl; [exact Halloc2|exact Hinj].
Qed.

(** An append to one session changes the history of no other session, in a
    store where no two sessions share a list. *)
Lemma update_conversation_history_other E session_id q a w s :
  store_ok w -> s <> session_id ->
  history_of (snd (update_conversation_history E session_id q a w)) s
  = history_of w s.
Proof.
  intros Hok Hne.
  pose proof (get_conversation_history_store_ok session_id w Hok) as Hok1.
  destruct (get_conversation_history_spec session_id w)
    as (l0 & w0 & Hget0 & Hl0 & _ & Hsame & _).
  destruct (update_conversation_history_shape E session_id q a w)
    as (l & w1 & Hget & Hupd).
  rewrite Hget0 in Hget. injection Hget as <- <-.
  rewrite Hget0 in Hok1. simpl in Hok1, Hupd. rewrite Hupd. simpl.
  rewrite <- (Hsame s).
  destruct Hok1 as [Halloc Hinj].
  set (items := deref w0 l0 ++ [mkExchange q a (now_isoformat E (ticks w0))]).
  unfold history_of.
  destruct (10 <? length items)%nat; simpl.
  - rewrite lookup_insert_ne by done.
    destruct (conversation_histories w0 !! s) as [ls|] eqn:Hs; [|done].
    assert (ls <> l0) by (intros ->; apply Hne; eauto).
    assert (is_Some (<[l0:=items]> (lists w0) !! ls)) as Hls
      by (apply lookup_insert_is_Some'; right; eauto).
    apply fresh_not_allocated in Hls.
    unfold deref. simpl. by rewrite !lookup_insert_ne by done.
  - destruct (conversation_histories w0 !! s) as [ls|] eqn:Hs; [|done].
    assert (ls <> l0) by (intros ->; apply Hne; eauto).
    unfold deref. simpl. by rewrite lookup_insert_ne by done.
Qed.

Lemma store_inv_same_store (w w' : World) :
  conversation_histories w' = conversation_histories w ->
  lists w' = lists w ->
  store_inv w -> store_inv w'.
Proof.
  intros Hd Hl [[Halloc Hinj] Hcap]. split; [split|].
  - intros s l. rewrite Hd, Hl. apply Halloc.
  - intros s1 s2 l. rewrite Hd. apply Hinj.
  - intros s. specialize (Hcap s). unfold history_of, deref in *.
    by rewrite Hd, Hl.
Qed.

Lemma get_conversation_history_keeps session_id :
  keeps store_inv (get_conversation_history session_id).
Proof.
  intros w [Hok Hcap]. split; [by apply get_conversation_history_store_ok|].
  destruct (get_conversation_history_spec session_id w)
    as (l & w1 & -> & _ & _ & Hsame & _).
  intros s. simpl. rewrite Hsame. apply Hcap.
Qed.

Lemma update_conversation_history_keeps E session_id q a :
  keeps store_inv (update_conversation_history E session_id q a).
Proof.
  intros w [Hok Hcap]. split; [by apply update_conversation_history_store_ok|].
  intros s. destruct (decide (s = session_id)) as [->|Hne].
  - destruct (append_caps_history E session_id w q a) as (w' & -> & Hlen & _).
    apply Hlen.
  - rewrite update_conversation_history_other by done. apply Hcap.
Qed.

Lemma delete_session_history session_id w s :
  history_of (snd (delete_session session_id w)) s
  = if decide (s = session_id) then [] else history_of w s.
Proof.
  rewrite delete_session_spec. unfold history_of, deref. simpl.
  destruct (decide (s = session_id)) as [->|Hne].
  - by rewrite lookup_delete_eq.
  - by rewrite lookup_delete_ne.
Qed.

Lemma delete_session_keeps session_id : keeps store_inv (delete_session session_id).
Proof.
  intros w [[Halloc Hinj] Hcap]. split; [split|].
  - rewrite delete_session_spec. simpl. intros s l Hs.
    apply lookup_delete_Some in Hs as [_ Hs]. eauto.
  - rewrite delete_session_spec. simpl. intros s1 s2 l H1 H2.
    apply lookup_delete_Some in H1 as [_ H1].
    apply lookup_delete_Some in H2 as [_ H2]. eauto.
  - intros s. rewrite delete_session_history.
    destruct (decide (s = session_id)); [simpl; lia|apply Hcap].
Qed.

Lemma keeps_ret (P : World -> Prop) {A} (a : A) : keeps P (ret a).
Proof. by intros w Hw. Qed.

Lemma keeps_raise (P : World -> Prop) {A} (e : exn) : keeps P (@raise A e).
Proof. by intros w Hw. Qed.

Lemma keeps_bind (P : World -> Prop) {A B} (c : M A) (k : A -> M B) :
  keeps P c -> (forall a, keeps P (k a)) -> keeps P (bind c k).
Proof.
  intros Hc Hk w Hw. unfold bind. specialize (Hc w Hw).
  destruct (c w) as [[a|e] w']; [by apply Hk|done].
Qed.

Lemma keeps_try_except (P : World -> Prop) {A} (body : M A) handler :
  keeps P body -> (forall e, keeps P (handler e)) ->
  keeps P (try_except body handler).
Proof.
  intros Hb Hh w Hw. unfold try_except. specialize (Hb w Hw).
  destruct (body w) as [[a|e] w']; [done|by apply Hh].
Qed.

(** What every operation keeps of a property that reads only the
    dictionary and the lists, once the two operations of the session store
    keep it. *)
Section Keeps.

Variable P : World -> Prop.
Hypothesis P_store :
  forall w w',
    conversation_histories w' = conversation_histories w ->
    lists w' = lists w -> P w -> P w'.

Lemma keeps_same_store {A} (c : M A) :
  (forall w, conversation_histories (snd (c w)) = conversation_histories w
             /\ lists (snd (c w)) = lists w) ->
  keeps P c.
Proof.
  intros Hc w Hw. destruct (Hc w) as [Hd Hl]. by apply (P_store w).
Qed.

Lemma read_time_keeps E : keeps P (read_time E).
Proof. by apply keeps_same_store. Qed.

Lemma read_now_keeps E : keeps P (read_now E).
Proof. by apply keeps_same_store. Qed.

Lemma ainvoke_keeps E prompt : keeps P (ainvoke E prompt).
Proof. by apply keeps_same_store. Qed.

Lemma list_items_keeps l : keeps P (list_items l).
Proof. by apply keeps_same_store. Qed.

Lemma get_context_documents_keeps E query :
  keeps P (get_context_documents E query).
Proof.
  apply keeps_same_store. intros w. by rewrite get_context_documents_spec.
Qed.

Lemma load_keeps E kind path : keeps P (load E kind path).
Proof. by apply keeps_same_store. Qed.

Lemma add_documents_keeps E batch : keeps P (add_documents E batch).
Proof. by apply keeps_same_store. Qed.

Lemma persist_if_supported_keeps E : keeps P (persist_if_supported E).
Proof.
  apply keeps_same_store. intros w. unfold persist_if_supported.
  by destruct (vectorstore_persist E) as [[]|[msg|key|msg]].
Qed.

Lemma tag_splits_keeps E collection splits :
  keeps P (tag_splits E collection splits).
Proof.
  induction splits as [|split rest IH]; [apply keeps_ret|].
  cbn [tag_splits]. apply keeps_bind; [apply read_now_keeps|]. intros now.
  apply keeps_bind; [apply IH|]. intros rest'. apply keeps_ret.
Qed.

Lemma add_batches_keeps E bs : keeps P (add_batches E bs).
Proof.
  induction bs as [|batch rest IH]; [apply keeps_ret|].
  cbn [add_batches]. apply keeps_bind; [apply add_documents_keeps|done].
Qed.

Lemma add_documents_async_keeps E path collection :
  keeps P (add_documents_async E path collection).
Proof.
  unfold add_documents_async.
  apply keeps_try_except; [|intros e; apply keeps_ret].
  apply keeps_bind; [apply load_keeps|]. intros documents.
  apply keeps_bind; [apply tag_splits_keeps|]. intros splits.
  apply keeps_bind; [apply add_batches_keeps|]. intros _.
  apply keeps_bind; [apply persist_if_supported_keeps|]. intros _.
  apply keeps_ret.
Qed.

Lemma upload_document_keeps E request : keeps P (upload_document E request).
Proof.
  unfold upload_document.
  apply keeps_bind; [apply add_documents_async_keeps|].
  intros []; [apply keeps_ret|apply keeps_raise].
Qed.

Lemma load_knowledge_base_keeps E path_exists :
  keeps P (load_knowledge_base E path_exists).
Proof.
  unfold load_knowledge_base.
  destruct (first_existing path_exists pdf_files); [|apply keeps_ret].
  apply keeps_try_except; [|intros e; apply keeps_ret].
  apply keeps_bind; [apply add_documents_async_keeps|].
  intros []; apply keeps_ret.
Qed.

Lemma debug_context_keeps E query : keeps P (debug_context E query).
Proof.
  unfold debug_context.
  apply keeps_bind; [apply get_context_documents_keeps|].
  intros [context_texts srcs]. apply keeps_ret.
Qed.

Variable sid : string.
Hypothesis P_get : keeps P (get_conversation_history sid).
Hypothesis P_update :
  forall E q a, keeps P (update_conversation_history E sid q a).

Lemma get_response_keeps E query : keeps P (get_response E query sid).
Proof.
  unfold get_response.
  apply keeps_bind; [apply read_time_keeps|]. intros start_time.
  apply keeps_try_except.
  - apply keeps_bind; [apply P_get|]. intros history.
    apply keeps_bind; [apply get_context_documents_keeps|].
    intros [context_texts srcs].
    apply keeps_bind; [apply list_items_keeps|]. intros items.
    apply keeps_bind; [apply ainvoke_keeps|]. intros full_response.
    apply keeps_bind; [apply P_update|]. intros _.
    apply keeps_bind; [apply read_time_keeps|]. intros end_time.
    apply keeps_bind; [apply read_now_keeps|]. intros now.
    apply keeps_ret.
  - intros e.
    apply keeps_bind; [apply read_now_keeps|]. intros now.
    apply keeps_bind; [apply read_time_keeps|]. intros end_time.
    apply keeps_ret.
Qed.

Lemma stream_words_keeps E query start_time srcs full words streamed :
  keeps P (stream_words E query sid start_time srcs full words streamed).
Proof.
  destruct words as [|word rest]; cbn [stream_words]; [|apply keeps_ret].
  apply keeps_bind; [apply P_update|]. intros _.
  apply keeps_bind; [apply read_time_keeps|]. intros end_time.
  apply keeps_bind; [apply read_now_keeps|]. intros now.
  apply keeps_ret.
Qed.

Lemma stream_failed_keeps E e : keeps P (stream_failed E sid e).
Proof.
  unfold stream_failed.
  apply keeps_bind; [apply read_now_keeps|]. intros now. apply keeps_ret.
Qed.

Lemma anext_keeps E g : gen_of sid g -> keeps P (anext E g).
Proof.
  destruct g as [query s|query s start_time srcs full rest streamed| |];
    cbn [anext gen_of]; intros Hg; subst; try apply keeps_ret.
  - apply keeps_bind; [|intros [ev g']; apply keeps_ret].
    unfold stream_begin.
    apply keeps_bind; [apply read_time_keeps|]. intros start_time.
    apply keeps_try_except; [|apply stream_failed_keeps].
    apply keeps_bind; [apply P_get|]. intros history.
    apply keeps_bind; [apply get_context_documents_keeps|].
    intros [context_texts srcs].
    apply keeps_bind; [apply list_items_keeps|]. intros items.
    apply keeps_bind; [apply ainvoke_keeps|]. intros full_response.
    apply stream_words_keeps.
  - apply keeps_bind; [|intros [ev g']; apply keeps_ret].
    apply keeps_try_except; [apply stream_words_keeps|apply stream_failed_keeps].
Qed.

Lemma anext_gen_of E g w r g' w' :
  gen_of sid g -> anext E g w = (Ok (r, g'), w') -> gen_of sid g'.
Proof.
  destruct g as [query s|query s start_time srcs full rest streamed| |];
    cbn [anext gen_of]; intros Hg Hnext; subst.
  - unfold bind at 1 in Hnext.
    destruct (stream_begin_spec E query sid w) as (w1 & _ & _ & _ & Hbegin).
    rewrite Hbegin in Hnext.
    destruct (llm_ainvoke E _) as [full|e].
    + destruct (Py.split full) as [|word rest].
      * destruct (stream_words_nil E query sid (time_time E (ticks w))
                    (snd (retrieved E query)) full EmptyString w1)
          as (w2 & Hfin & _).
        rewrite Hfin in Hnext. by injection Hnext as <- <- <-.
      * by injection Hnext as <- <- <-.
    + by injection Hnext as <- <- <-.
  - unfold bind at 1, try_except in Hnext.
    destruct rest as [|word rest].
    + destruct (stream_words_nil E query sid start_time srcs full streamed w)
        as (w2 & Hfin & _).
      rewrite Hfin in Hnext. by injection Hnext as <- <- <-.
    + by injection Hnext as <- <- <-.
  - by injection Hnext as <- <- <-.
  - by injection Hnext as <- <- <-.
Qed.

Lemma async_for_keeps E fuel :
  forall g w, gen_of sid g -> P w -> P (snd (async_for E fuel g w)).
Proof.
  induction fuel as [|fuel IH]; intros g w Hg Hw; [done|].
  cbn [async_for]. pose proof (anext_keeps E g Hg w Hw) as Hnext.
  destruct (anext E g w) as [[[[ev|] g']|e] w'] eqn:Hstep; [|done|done].
  pose proof (anext_gen_of E g w _ _ _ Hg Hstep) as Hg'.
  specialize (IH g' w' Hg' Hnext).
  by destruct (async_for E fuel g' w') as [[evs ending] w''].
Qed.

End Keeps.

Lemma call_keeps c w : store_inv w -> store_inv (call c w).
Proof.
  intros Hw. destruct c; cbn [call].
  - apply (get_response_keeps store_inv store_inv_same_store sid); [| |done].
    + apply get_conversation_history_keeps.
    + intros E' q a. apply update_conversation_history_keeps.
  - apply (async_for_keeps store_inv store_inv_same_store sid); [| |done|done].
    + apply get_conversation_history_keeps.
    + intros E' q a. apply update_conversation_history_keeps.
  - by apply delete_session_keeps.
  - by apply (upload_document_keeps store_inv store_inv_same_store).
  - by apply (debug_context_keeps store_inv store_inv_same_store).
  - by apply (load_knowledge_base_keeps store_inv store_inv_same_store).
Qed.

Lemma serve_keeps calls : forall w, store_inv w -> store_inv (serve calls w).
Proof.
  unfold serve. induction calls as [|c calls IH]; intros w Hw; [done|].
  cbn [foldl]. apply IH. by apply call_keeps.
Qed.

Lemma store_inv_empty : store_inv empty_world.
Proof.
  split; [split|].
  - intros s l Hs. simpl in Hs. by rewrite lookup_empty in Hs.
  - intros s1 s2 l Hs. simpl in Hs. by rewrite lookup_empty in Hs.
  - intros s. unfold history_of. simpl. rewrite lookup_empty. simpl. lia.
Qed.

(** X1: from the empty store, after any sequence of blocking turns, streams
    consumed to any point, deletions, uploads, debug reads and knowledge-base
    loads, with any behaviour of the collaborators, no session holds more
    than ten exchanges, no two sessions share a list object, and every list
    a session refers to exists. *)
Theorem served_store_is_capped_and_unshared (calls : list Call) :
  let w := serve calls empty_world in
  (forall s, length (history_of w s) <= 10)
  /\ (forall s1 s2 l,
        conversation_histories w !! s1 = Some l ->
        conversation_histories w !! s2 = Some l -> s1 = s2)
  /\ (forall s l, conversation_histories w !! s = Some l -> is_Some (lists w !! l)).
Proof.
  destruct (serve_keeps calls empty_world store_inv_empty) as [[Halloc Hinj] Hcap].
  auto.
Qed.

Lemma other_history_store (s : string) (h : list Exchange) (w w' : World) :
  conversation_histories w' = conversation_histories w ->
  lists w' = lists w ->
  store_inv w /\ history_of w s = h -> store_inv w' /\ history_of w' s = h.
Proof.
  intros Hd Hl [Hinv Hh]. split; [by apply (store_inv_same_store w)|].
  unfold history_of, deref in *. by rewrite Hd, Hl.
Qed.

(** X2: a turn of one session, blocking or streamed and consumed to any
    point, and the deletion of one session, leave the history of every other
    session as it was, in every store the engine can reach from the empty
    one. *)
Theorem sessions_do_not_interfere (calls : list Call) E query sid fuel s :
  s <> sid ->
  let w := serve calls empty_world in
  history_of (snd (get_response E query sid w)) s = history_of w s
  /\ history_of (snd (async_for E fuel (stream_response query sid) w)) s
     = history_of w s
  /\ history_of (snd (delete_session sid w)) s = history_of w s.
Proof.
  intros Hne w.
  pose proof (serve_keeps calls empty_world store_inv_empty) as Hinv.
  fold w in Hinv.
  set (P := fun w' => store_inv w' /\ history_of w' s = history_of w s).
  assert (Hget : keeps P (get_conversation_history sid)).
  { intros w0 [Hinv0 Hh0]. split; [by apply get_conversation_history_keeps|].
    destruct (get_conversation_history_spec sid w0)
      as (l & w1 & -> & _ & _ & Hsame & _).
    simpl. by rewrite Hsame. }
  assert (Hupd : forall E' q a, keeps P (update_conversation_history E' sid q a)).
  { intros E' q a w0 [Hinv0 Hh0].
    split; [by apply update_conversation_history_keeps|].
    rewrite update_conversation_history_other; [done|apply Hinv0|done]. }
  assert (Hw : P w) by done.
  split; [|split].
  - apply (get_response_keeps P (other_history_store s _) sid Hget Hupd E query w Hw).
  - apply (async_for_keeps P (other_history_store s _) sid Hget Hupd E fuel _ w);
      [reflexivity|done].
  - rewrite delete_session_history. by destruct (decide (s = sid)).
Qed.

Lemma sessions_do_not_interfere_witness :
  history_of (snd (get_response env_ok "again" "bob"
                     (serve [CallGetResponse env_ok "hi" "ann"] empty_world))) "ann"
  = history_of (serve [CallGetResponse env_ok "hi" "ann"] empty_world) "ann"
  /\ history_of (snd (async_for env_ok 9 (stream_response "again" "bob")
                        (serve [CallGetResponse env_ok "hi" "ann"] empty_world))) "ann"
     = history_of (serve [CallGetResponse env_ok "hi" "ann"] empty_world) "ann"
  /\ history_of (snd (delete_session "bob"
                        (serve [CallGetResponse env_ok "hi" "ann"] empty_world))) "ann"
     = history_of (serve [CallGetResponse env_ok "hi" "ann"] empty_world) "ann".
Proof.
  apply (sessions_do_not_interfere [CallGetResponse env_ok "hi" "ann"]
           env_ok "again" "bob" 9 "ann").
  discriminate.
Defined.

(** ** Words and white space *)

Lemma spaceless_snoc cur c :
  spaceless cur = true -> Py.isspace c = false ->
  spaceless (Py.snoc cur c) = true.
Proof.
  intros Hcur Hc. unfold Py.snoc.
  induction cur as [|x cur IH]; cbn [spaceless] in *.
  - change (EmptyString +:+ String c EmptyString) with (String c EmptyString).
    cbn [spaceless]. by rewrite Hc.
  - rewrite append_cons. cbn [spaceless].
    apply andb_true_iff in Hcur as [Hx Hcur]. rewrite Hx. by apply IH.
Qed.

Lemma snoc_not_empty cur c : Py.snoc cur c <> EmptyString.
Proof. unfold Py.snoc. by destruct cur. Qed.

(** The words [split] returns are not empty and hold no white space. *)
Lemma split_from_words s :
  forall cur,
    spaceless cur = true ->
    Forall (fun word => word <> EmptyString /\ spaceless word = true)
           (Py.split_from cur s).
Proof.
  induction s as [|c rest IH]; intros cur Hcur; cbn [Py.split_from].
  - destruct cur; [constructor|]. constructor; [done|constructor].
  - destruct (Py.isspace c) eqn:Hc.
    + destruct cur; [by apply IH|]. constructor; [done|by apply IH].
    + apply IH. by apply spaceless_snoc.
Qed.

Lemma split_words s :
  Forall (fun word => word <> EmptyString /\ spaceless word = true) (Py.split s).
Proof. by apply split_from_words. Qed.

Lemma split_blank s : blank s = true -> Py.split s = [].
Proof.
  unfold Py.split. induction s as [|c rest IH]; cbn [blank Py.split_from]; [done|].
  intros [Hc Hrest]%andb_true_iff. rewrite Hc. by apply IH.
Qed.

Lemma lstrip_word word rest :
  word <> EmptyString -> spaceless word = true ->
  Py.lstrip (word +:+ rest) = word +:+ rest.
Proof.
  destruct word as [|c word]; [done|]. intros _ Hw. cbn [spaceless] in Hw.
  apply andb_true_iff in Hw as [Hc _]. apply negb_true_iff in Hc.
  rewrite append_cons. cbn [Py.lstrip]. by rewrite Hc.
Qed.

Lemma rstrip_word word :
  word <> EmptyString -> spaceless word = true -> Py.rstrip word = word.
Proof.
  induction word as [|c word IH]; [done|]. intros _ Hw. cbn [spaceless] in Hw.
  apply andb_true_iff in Hw as [Hc Hw]. apply negb_true_iff in Hc.
  cbn [Py.rstrip]. destruct word as [|d word].
  - cbn [Py.rstrip]. by rewrite Hc.
  - rewrite IH by done. done.
Qed.

Lemma rstrip_app_word a word :
  word <> EmptyString -> spaceless word = true ->
  Py.rstrip (a +:+ word) = a +:+ word.
Proof.
  intros Hne Hw. induction a as [|c a IH]; [by apply rstrip_word|].
  rewrite append_cons. cbn [Py.rstrip]. rewrite IH.
  destruct (a +:+ word) eqn:Ha; [|done].
  destruct a; [|by rewrite append_cons in Ha]. by destruct word.
Qed.

Lemma rstrip_app_space s c :
  Py.isspace c = true -> Py.rstrip (s +:+ String c EmptyString) = Py.rstrip s.
Proof.
  intros Hc. induction s as [|x s IH].
  - change (EmptyString +:+ String c EmptyString) with (String c EmptyString).
    cbn [Py.rstrip]. by rewrite Hc.
  - rewrite append_cons. cbn [Py.rstrip]. by rewrite IH.
Qed.

Lemma join_snoc sep words word :
  words <> [] ->
  Py.join sep (words ++ [word]) = Py.join sep words +:+ sep +:+ word.
Proof.
  induction words as [|w words IH]; [done|]. intros _.
  destruct words as [|w' words]; [done|].
  change ((w :: w' :: words) ++ [word]) with (w :: ((w' :: words) ++ [word])).
  cbn [Py.join app]. cbn [Py.join app] in IH. rewrite IH by done.
  by rewrite !append_assoc.
Qed.

Lemma spaced_snoc words word : spaced (words ++ [word]) = spaced words +:+ word +:+ " ".
Proof. unfold spaced. by rewrite foldl_app. Qed.

Lemma spaced_join words :
  words <> [] -> spaced words = Py.join " " words +:+ " ".
Proof.
  induction words as [|word words IH] using rev_ind; [done|]. intros _.
  rewrite spaced_snoc. destruct words as [|w words].
  - reflexivity.
  - rewrite IH by done. rewrite join_snoc by done. by rewrite !append_assoc.
Qed.

(** Stripping the text streamed so far leaves its words joined by single
    spaces. *)
Lemma strip_spaced words :
  words <> [] ->
  Forall (fun word => word <> EmptyString /\ spaceless word = true) words ->
  Py.strip (spaced words) = Py.join " " words.
Proof.
  intros Hne Hwords. rewrite spaced_join by done. unfold Py.strip.
  assert (Hl : Py.lstrip (Py.join " " words +:+ " ") = Py.join " " words +:+ " ").
  { destruct words as [|w words]; [done|].
    apply Forall_cons in Hwords as [[Hw1 Hw2] _].
    destruct words as [|w' words]; cbn [Py.join].
    - by apply lstrip_word.
    - rewrite !append_assoc. by apply lstrip_word. }
  rewrite Hl, rstrip_app_space by done.
  induction words as [|word words _] using rev_ind; [done|].
  apply Forall_app in Hwords as [_ [[Hw1 Hw2] _]%Forall_cons].
  destruct words as [|w words]; [by apply rstrip_word|].
  rewrite join_snoc by done.
  rewrite <- append_assoc. by apply rstrip_app_word.
Qed.

(** ** The stream *)

Lemma partial_events_lookup srcs sid :
  forall words before k word,
    Forall (fun word => word <> EmptyString /\ spaceless word = true)
           (before ++ words) ->
    words !! k = Some word ->
    partial_events srcs sid words (spaced before) !! k
    = Some (EvPartial (word +:+ " ") (Py.join " " (before ++ take (S k) words))
              srcs sid).
Proof.
  induction words as [|w rest IH]; intros before k word Hgood Hk; [done|].
  cbn [partial_events]. rewrite <- spaced_snoc.
  destruct k as [|k].
  - injection Hk as <-. simpl lookup. cbn [take].
    rewrite strip_spaced; [done|by destruct before|].
    apply Forall_app in Hgood as [Hb [Hw _]%Forall_cons].
    apply Forall_app. split; [done|by constructor].
  - simpl lookup. simpl in Hk.
    rewrite (IH (before ++ [w]) k word); [|by rewrite <- app_assoc|done].
    by rewrite <- app_assoc.
Qed.

(** X3: in a stream that succeeds, the event for the word at position [k]
    carries that word followed by one space, and as cumulative text the
    first [k + 1] words of the answer joined by single spaces, whatever
    white space separated them in the answer. *)
Theorem partial_event_joins_words E w query sid full fuel k word :
  llm_ainvoke E (stream_prompt (history_of w sid) (fst (retrieved E query)) query)
  = Ok full ->
  length (Py.split full) + 2 <= fuel ->
  Py.split full !! k = Some word ->
  events_of (async_for E fuel (stream_response query sid) w) !! k
  = Some (EvPartial (word +:+ " ") (Py.join " " (take (S k) (Py.split full)))
            (snd (retrieved E query)) sid).
Proof.
  intros Hllm Hfuel Hk.
  destruct (stream_succeeds E query sid w full Hllm fuel Hfuel)
    as (w1 & w2 & -> & _).
  unfold events_of. cbn [fst]. rewrite map_app, map_map. cbn [map fst].
  rewrite map_id. rewrite lookup_app_l.
  - apply (partial_events_lookup _ _ (Py.split full) [] k word); [|done].
    apply split_words.
  - rewrite partial_events_length. by eapply lookup_lt_Some.
Qed.

Lemma partial_event_joins_words_witness :
  events_of (async_for env_ragged 5 (stream_response "hi" "s1") empty_world) !! 1
  = Some (EvPartial ("world" +:+ " ")
            (Py.join " "
               (take 2 (Py.split ("  Hello   world" +:+ Py.nl +:+ "test "))))
            (snd (retrieved env_ragged "hi")) "s1").
Proof.
  apply (partial_event_joins_words env_ragged empty_world "hi" "s1"
           ("  Hello   world" +:+ Py.nl +:+ "test ") 5 1 "world").
  - reflexivity.
  - vm_compute. lia.
  - reflexivity.
Defined.

(** X4: when the model's answer is empty or white space only, the stream
    carries no partial event: its only event is the complete event with the
    answer as given, and the exchange is still recorded with that answer. *)
Theorem blank_answer_streams_only_complete E w query sid full fuel :
  llm_ainvoke E (stream_prompt (history_of w sid) (fst (retrieved E query)) query)
  = Ok full ->
  blank full = true ->
  2 <= fuel ->
  let run := async_for E fuel (stream_response query sid) w in
  events_of run
  = [EvComplete full (snd (retrieved E query)) sid
       (time_time E (ticks w + 2) - time_time E (ticks w))
       (now_isoformat E (ticks w + 3))]
  /\ ending_of run = Exhausted
  /\ history_of (snd run) sid
     = drop (length (history_of w sid) + 1 - 10)
         (history_of w sid
          ++ [mkExchange query full (now_isoformat E (S (ticks w)))]).
Proof.
  intros Hllm Hblank Hfuel run.
  pose proof (split_blank full Hblank) as Hsplit.
  destruct (stream_succeeds E query sid w full Hllm fuel) as (w1 & w2 & Hrun & _ & Hh & _).
  { rewrite Hsplit. simpl. lia. }
  subst run. rewrite Hrun, Hsplit. split; [reflexivity|]. split; [reflexivity|].
  cbn [snd]. rewrite Hh. unfold Py.last_n. by rewrite length_app.
Qed.

Lemma blank_answer_streams_only_complete_witness :
  let run := async_for env_blank 2 (stream_response "hi" "s1") empty_world in
  events_of run
  = [EvComplete ("  " +:+ Py.nl) (snd (retrieved env_blank "hi")) "s1"
       (time_time env_blank (ticks empty_world + 2)
        - time_time env_blank (ticks empty_world))
       (now_isoformat env_blank (ticks empty_world + 3))]
  /\ ending_of run = Exhausted
  /\ history_of (snd run) "s1"
     = drop (length (history_of empty_world "s1") + 1 - 10)
         (history_of empty_world "s1"
          ++ [mkExchange "hi" ("  " +:+ Py.nl)
                (now_isoformat env_blank (S (ticks empty_world)))]).
Proof.
  apply (blank_answer_streams_only_complete env_blank empty_world "hi" "s1"
           ("  " +:+ Py.nl) 2).
  - reflexivity.
  - reflexivity.
  - lia.
Defined.

Lemma async_for_partial_short E query sid start_time srcs full :
  forall fuel rest streamed w1,
    fuel <= length rest ->
    exists g,
      async_for E fuel
        (GenPartial query sid start_time srcs full rest streamed) w1
      = (map (fun ev => (ev, w1)) (take fuel (partial_events srcs sid rest streamed)),
         Suspended g, w1).
Proof.
  induction fuel as [|fuel IH]; intros rest streamed w1 Hfuel.
  - eexists. reflexivity.
  - destruct rest as [|word rest]; [simpl in Hfuel; lia|].
    destruct (IH rest (streamed +:+ word +:+ " ") w1 ltac:(simpl in Hfuel; lia))
      as (g & Hrun).
    exists g. cbn [async_for anext stream_words]. unfold try_except, bind, ret.
    rewrite Hrun. reflexivity.
Qed.

(** X5: a stream that the consumer drops before it has asked for the event
    after the last partial records nothing: the partial events received are
    the first ones of the full stream, the generator is left suspended, and
    no session's history has changed, although the prompt was sent and the
    model answered. *)
Theorem abandoned_stream_records_nothing E w query sid full fuel :
  llm_ainvoke E (stream_prompt (history_of w sid) (fst (retrieved E query)) query)
  = Ok full ->
  1 <= fuel ->
  fuel <= length (Py.split full) ->
  let run := async_for E fuel (stream_response query sid) w in
  events_of run
  = take fuel
      (partial_events (snd (retrieved E query)) sid (Py.split full) EmptyString)
  /\ (exists g, ending_of run = Suspended g)
  /\ (forall s, history_of (snd run) s = history_of w s)
  /\ prompts_sent (snd run)
     = prompts_sent w
       ++ [stream_prompt (history_of w sid) (fst (retrieved E query)) query].
Proof.
  intros Hllm Hpos Hfuel run.
  destruct (stream_begin_spec E query sid w) as (w1 & Hsame & _ & Hp & Hbegin).
  rewrite Hllm in Hbegin.
  destruct fuel as [|fuel]; [lia|].
  destruct (Py.split full) as [|word rest]; [simpl in Hfuel; lia|].
  destruct (async_for_partial_short E query sid (time_time E (ticks w))
              (snd (retrieved E query)) full fuel rest
              (EmptyString +:+ word +:+ " ") w1 ltac:(simpl in Hfuel; lia))
    as (g & Hrun).
  assert (Hfull :
    async_for E (S fuel) (stream_response query sid) w
    = (map (fun ev => (ev, w1))
         (take (S fuel)
            (partial_events (snd (retrieved E query)) sid (word :: rest)
               EmptyString)),
       Suspended g, w1)).
  { cbn [async_for stream_response anext]. unfold bind at 1.
    rewrite Hbegin. cbn [stream_words]. unfold ret. by rewrite Hrun. }
  subst run. rewrite Hfull.
  unfold events_of, ending_of. cbn [fst snd].
  rewrite map_map. cbn [fst]. rewrite map_id.
  split; [reflexivity|]. split; [by exists g|]. by split.
Qed.

Lemma abandoned_stream_records_nothing_witness :
  let run := async_for env_ok 3 (stream_response "hi" "s1") empty_world in
  events_of run
  = take 3
      (partial_events (snd (retrieved env_ok "hi")) "s1"
         (Py.split "Hello world test") EmptyString)
  /\ (exists g, ending_of run = Suspended g)
  /\ (forall s, history_of (snd run) s = history_of empty_world s)
  /\ prompts_sent (snd run)
     = prompts_sent empty_world
       ++ [stream_prompt (history_of empty_world "s1")
             (fst (retrieved env_ok "hi")) "hi"].
Proof.
  apply (abandoned_stream_records_nothing env_ok empty_world "hi" "s1"
           "Hello world test" 3).
  - reflexivity.
  - lia.
  - vm_compute. lia.
Defined.

Lemma anext_returns E g w :
  exists r g' w', anext E g w = (Ok (r, g'), w').
Proof.
  destruct g as [query sid|query sid start_time srcs full rest streamed| |];
    cbn [anext]; try by eexists _, _, _.
  - unfold bind at 1.
    destruct (stream_begin_spec E query sid w) as (w1 & _ & _ & _ & ->).
    destruct (llm_ainvoke E _) as [full|e]; [|by eexists _, _, _].
    destruct (Py.split full) as [|word rest]; [|by eexists _, _, _].
    destruct (stream_words_nil E query sid (time_time E (ticks w))
                (snd (retrieved E query)) full EmptyString w1) as (w2 & -> & _).
    by eexists _, _, _.
  - unfold bind at 1, try_except.
    destruct rest as [|word rest]; [|by eexists _, _, _].
    destruct (stream_words_nil E query sid start_time srcs full streamed w)
      as (w2 & -> & _).
    by eexists _, _, _.
Qed.

(** X6: no exception leaves the generator of [stream_response], whatever
    the collaborators do and wherever the generator stands: a loop over it
    ends because the generator is exhausted or because the consumer stops. *)
Theorem stream_never_raises E fuel g w :
  ending_of (async_for E fuel g w) = Exhausted
  \/ exists g', ending_of (async_for E fuel g w) = Suspended g'.
Proof.
  revert g w. induction fuel as [|fuel IH]; intros g w.
  - right. by exists g.
  - cbn [async_for].
    destruct (anext_returns E g w) as ([ev|] & g' & w' & ->); [|by left].
    specialize (IH g' w').
    destruct (async_for E fuel g' w') as [[evs ending] w''].
    exact IH.
Qed.

Lemma get_response_returns E w query sid :
  exists r w',
    get_response E query sid w = (Ok r, w')
    /\ session_id r = sid
    /\ (response r, sources r)
       = match llm_ainvoke E
                 (response_prompt (history_of w sid) (fst (retrieved E query)) query)
         with
         | Ok full => (full, snd (retrieved E query))
         | Raise _ => (apology, [])
         end
    /\ prompts_sent w'
       = prompts_sent w
         ++ [response_prompt (history_of w sid) (fst (retrieved E query)) query].
Proof.
  destruct (llm_ainvoke E _) as [full|e] eqn:Hllm.
  - destruct (get_response_succeeds E query sid w full Hllm) as (w2 & -> & _ & Hp).
    by eexists _, _.
  - destruct (get_response_fails E query sid w e Hllm) as (w1 & -> & _ & Hp).
    by eexists _, _.
Qed.

(** X7: [get_response] never raises.  It returns the caller's session id;
    its text is the model's answer, with the labels of the retrieved
    documents, exactly when the model call returned, and the apology with no
    sources exactly when the model call raised. *)
Theorem get_response_total E w query sid :
  exists r w',
    get_response E query sid w = (Ok r, w')
    /\ session_id r = sid
    /\ (response r, sources r)
       = match llm_ainvoke E
                 (response_prompt (history_of w sid) (fst (retrieved E query)) query)
         with
         | Ok full => (full, snd (retrieved E query))
         | Raise _ => (apology, [])
         end
    /\ prompts_sent w'
       = prompts_sent w
         ++ [response_prompt (history_of w sid) (fst (retrieved E query)) query].
Proof. apply get_response_returns. Qed.

(** ** More on the session store *)

(** X8: an append is made in place on the list object
    [get_conversation_history] returns, so every holder of that list sees the
    new exchange.  While the list has at most ten items the session keeps
    that object; with the eleventh item the session is bound to a new list
    of the last ten, and the old object keeps all its items. *)
Theorem append_in_place_until_overflow E session_id q a w :
  exists l w0 w',
    get_conversation_history session_id w = (Ok l, w0)
    /\ update_conversation_history E session_id q a w = (Ok tt, w')
    /\ let items :=
         history_of w session_id ++ [mkExchange q a (now_isoformat E (ticks w))] in
       deref w' l = items
       /\ if (10 <? length items)%nat then
            exists l',
              l' <> l
              /\ conversation_histories w' !! session_id = Some l'
              /\ deref w' l' = drop (length items - 10) items
          else conversation_histories w' !! session_id = Some l.
Proof.
  destruct (get_conversation_history_spec session_id w)
    as (l0 & w0 & Hget0 & Hl0 & Hitems & _ & Ht & _).
  destruct (update_conversation_history_shape E session_id q a w)
    as (l & w1 & Hget & Hupd).
  rewrite Hget0 in Hget. injection Hget as <- <-.
  cbv zeta in Hupd. rewrite Hitems, Ht in Hupd.
  set (items := history_of w session_id
                ++ [mkExchange q a (now_isoformat E (ticks w))]) in *.
  set (h2 := <[l0:=items]> (lists w0)) in *.
  assert (Hl : l0 <> fresh (dom h2)).
  { apply fresh_not_allocated. unfold h2. rewrite lookup_insert_eq. eauto. }
  destruct (10 <? length items)%nat eqn:Hlen;
    eexists l0, w0, _; (split; [done|]); (split; [apply Hupd|]);
    cbv zeta; fold items; rewrite Hlen.
  - split.
    + unfold deref. simpl. rewrite lookup_insert_ne by done.
      unfold h2. by rewrite lookup_insert_eq.
    + exists (fresh (dom h2)). split; [done|]. split.
      * simpl. apply lookup_insert_eq.
      * unfold deref. simpl. by rewrite lookup_insert_eq.
  - split.
    + unfold deref. simpl. unfold h2. by rewrite lookup_insert_eq.
    + simpl. exact Hl0.
Qed.

(** X9: the first reference to an unknown session id stores an empty list
    under it; from then on [get_conversation_history] returns that same list
    and changes nothing. *)
Theorem first_reference_creates_session session_id w :
  exists l w1,
    get_conversation_history session_id w = (Ok l, w1)
    /\ conversation_histories w1 !! session_id = Some l
    /\ deref w1 l = match conversation_histories w !! session_id with
                    | Some l0 => deref w l0
                    | None => []
                    end
    /\ get_conversation_history session_id w1 = (Ok l, w1).
Proof.
  destruct (get_conversation_history_spec session_id w)
    as (l & w1 & Hget & Hl & Hitems & _).
  exists l, w1. split; [done|]. split; [done|]. split; [exact Hitems|].
  destruct (get_conversation_history_shape session_id w1)
    as [(l' & Hl' & ->)|[Hnone _]]; congruence.
Qed.

(** X10: after a session is deleted, its next turn starts from nothing: the
    prompt is built with an empty conversation block and the history then
    holds the new exchange only. *)
Theorem deleted_session_starts_again E w query sid full :
  llm_ainvoke E (response_prompt [] (fst (retrieved E query)) query) = Ok full ->
  exists message w1 r w2,
    delete_session sid w = (Ok message, w1)
    /\ get_response E query sid w1 = (Ok r, w2)
    /\ response r = full
    /\ history_of w2 sid
       = [mkExchange query full (now_isoformat E (S (ticks w)))]
    /\ prompts_sent w2
       = prompts_sent w ++ [response_prompt [] (fst (retrieved E query)) query].
Proof.
  intros Hllm. rewrite delete_session_spec.
  set (w1 := set_histories _ _).
  assert (Hh : history_of w1 sid = []).
  { unfold history_of, w1. simpl. by rewrite lookup_delete_eq. }
  destruct (get_response_succeeds E query sid w1 full) as (w2 & Hrun & Hh2 & Hp).
  { by rewrite Hh. }
  eexists _, w1, _, w2. split; [done|]. split; [exact Hrun|].
  split; [done|]. rewrite Hh in Hh2, Hp. split; [exact Hh2|exact Hp].
Qed.

Lemma deleted_session_starts_again_witness :
  exists message w1 r w2,
    delete_session "s1" (serve [CallGetResponse env_ok "hi" "s1"] empty_world)
    = (Ok message, w1)
    /\ get_response env_ok "again" "s1" w1 = (Ok r, w2)
    /\ response r = "Hello world test"
    /\ history_of w2 "s1"
       = [mkExchange "again" "Hello world test"
            (now_isoformat env_ok
               (S (ticks (serve [CallGetResponse env_ok "hi" "s1"] empty_world))))]
    /\ prompts_sent w2
       = prompts_sent (serve [CallGetResponse env_ok "hi" "s1"] empty_world)
         ++ [response_prompt [] (fst (retrieved env_ok "again")) "again"].
Proof.
  apply (deleted_session_starts_again env_ok
           (serve [CallGetResponse env_ok "hi" "s1"] empty_world)
           "again" "s1" "Hello world test").
  reflexivity.
Defined.

(** ** Turns in sequence *)

Lemma last_n_snoc {A} n (l : list A) x :
  Py.last_n (S n) (l ++ [x]) = Py.last_n n l ++ [x].
Proof.
  unfold Py.last_n. rewrite length_app. cbn [length].
  replace (length l + 1 - S n) with (length l - n) by lia.
  by rewrite drop_app_le by lia.
Qed.

Lemma render_last_occurs older x :
  occurs_in (render_exchange x)
    (foldr (fun item rest => render_exchange item +:+ rest) EmptyString
       (older ++ [x])).
Proof.
  exists (foldr (fun item rest => render_exchange item +:+ rest) EmptyString older),
    EmptyString.
  induction older as [|y older IH]; cbn [foldr app].
  - reflexivity.
  - rewrite IH. by rewrite append_assoc.
Qed.

Lemma occurs_in_context needle conversation context query :
  occurs_in needle conversation ->
  occurs_in needle (template_body conversation context query).
Proof.
  intros (before & after & ->). unfold template_body.
  eexists ("Previous Conversation:" +:+ Py.nl +:+ before), _.
  rewrite !append_assoc. reflexivity.
Qed.

Lemma occurs_in_prefixed needle prefix s :
  occurs_in needle s -> occurs_in needle (prefix +:+ s).
Proof.
  intros (before & after & ->). exists (prefix +:+ before), after.
  by rewrite !append_assoc.
Qed.

(** The exchange a history ends with is quoted in both prompts. *)
Lemma last_exchange_in_prompts h x chunks query :
  occurs_in (render_exchange x) (response_prompt (h ++ [x]) chunks query)
  /\ occurs_in (render_exchange x) (stream_prompt (h ++ [x]) chunks query).
Proof.
  assert (Hc : occurs_in (render_exchange x) (conversation_context (h ++ [x]))).
  { rewrite conversation_context_spec.
    change (drop (length (h ++ [x]) - 3) (h ++ [x])) with (Py.last_n 3 (h ++ [x])).
    rewrite last_n_snoc. apply render_last_occurs. }
  split.
  - unfold response_prompt. apply occurs_in_prefixed. by apply occurs_in_context.
  - unfold stream_prompt. apply occurs_in_prefixed, occurs_in_prefixed.
    by apply occurs_in_context.
Qed.

(** X11: a turn that succeeds is remembered by the next turn of the same
    session: the prompt the next blocking call sends, and the prompt the
    next stream sends, quote its query and its answer as a [User:] line and
    an [Assistant:] line. *)
Theorem next_prompt_quotes_last_turn E1 E2 w query1 query2 sid answer1 :
  llm_ainvoke E1
    (response_prompt (history_of w sid) (fst (retrieved E1 query1)) query1)
  = Ok answer1 ->
  exists r1 w1 prompt2 prompt2',
    get_response E1 query1 sid w = (Ok r1, w1)
    /\ prompts_sent (snd (get_response E2 query2 sid w1))
       = prompts_sent w1 ++ [prompt2]
    /\ occurs_in ("User: " +:+ query1 +:+ Py.nl
                  +:+ "Assistant: " +:+ answer1 +:+ Py.nl +:+ Py.nl) prompt2
    /\ prompts_sent (snd (anext E2 (stream_response query2 sid) w1))
       = prompts_sent w1 ++ [prompt2']
    /\ occurs_in ("User: " +:+ query1 +:+ Py.nl
                  +:+ "Assistant: " +:+ answer1 +:+ Py.nl +:+ Py.nl) prompt2'.
Proof.
  intros Hllm.
  destruct (get_response_succeeds E1 query1 sid w answer1 Hllm)
    as (w1 & Hrun & Hh & _).
  change 10 with (S 9) in Hh. rewrite last_n_snoc in Hh.
  destruct (last_exchange_in_prompts (Py.last_n 9 (history_of w sid))
              (mkExchange query1 answer1 (now_isoformat E1 (S (ticks w))))
              (fst (retrieved E2 query2)) query2) as [Hb Hs].
  rewrite <- Hh in Hb, Hs.
  eexists _, w1, _, _. split; [exact Hrun|].
  destruct (get_response_returns E2 w1 query2 sid) as (r2 & w2 & Hrun2 & _ & _ & Hp2).
  rewrite Hrun2. split; [exact Hp2|]. split; [exact Hb|]. split; [|exact Hs].
  destruct (stream_begin_spec E2 query2 sid w1) as (w1' & _ & _ & Hp & Hbegin).
  cbn [stream_response anext]. unfold bind at 1. rewrite Hbegin.
  destruct (llm_ainvoke E2 _) as [full|e]; [|exact Hp].
  destruct (Py.split full) as [|word rest]; [|exact Hp].
  destruct (stream_words_nil E2 query2 sid (time_time E2 (ticks w1))
              (snd (retrieved E2 query2)) full EmptyString w1')
    as (w2' & -> & _ & Hp').
  simpl. by rewrite Hp'.
Qed.

Lemma next_prompt_quotes_last_turn_witness :
  exists r1 w1 prompt2 prompt2',
    get_response env_ok "hi" "s1" empty_world = (Ok r1, w1)
    /\ prompts_sent (snd (get_response env_llm_down "again" "s1" w1))
       = prompts_sent w1 ++ [prompt2]
    /\ occurs_in ("User: " +:+ "hi" +:+ Py.nl
                  +:+ "Assistant: " +:+ "Hello world test" +:+ Py.nl +:+ Py.nl)
         prompt2
    /\ prompts_sent (snd (anext env_llm_down (stream_response "again" "s1") w1))
       = prompts_sent w1 ++ [prompt2']
    /\ occurs_in ("User: " +:+ "hi" +:+ Py.nl
                  +:+ "Assistant: " +:+ "Hello world test" +:+ Py.nl +:+ Py.nl)
         prompt2'.
Proof.
  apply (next_prompt_quotes_last_turn env_ok env_llm_down empty_world
           "hi" "again" "s1" "Hello world test").
  reflexivity.
Defined.

(** X12: the blocking and the streaming operation record the same exchange:
    when the model gives both the same answer, a blocking call and a stream
    consumed to its end leave the session with the same history. *)
Theorem both_operations_record_the_same E w query sid full fuel :
  llm_ainvoke E (response_prompt (history_of w sid) (fst (retrieved E query)) query)
  = Ok full ->
  llm_ainvoke E (stream_prompt (history_of w sid) (fst (retrieved E query)) query)
  = Ok full ->
  length (Py.split full) + 2 <= fuel ->
  history_of (snd (async_for E fuel (stream_response query sid) w)) sid
  = history_of (snd (get_response E query sid w)) sid
  /\ history_of (snd (get_response E query sid w)) sid
     = drop (length (history_of w sid) + 1 - 10)
         (history_of w sid
          ++ [mkExchange query full (now_isoformat E (S (ticks w)))]).
Proof.
  intros Hb Hs Hfuel.
  destruct (stream_succeeds E query sid w full Hs fuel Hfuel)
    as (w1 & w2 & -> & _ & Hh & _).
  destruct (get_response_succeeds E query sid w full Hb) as (w3 & -> & Hh3 & _).
  cbn [snd]. rewrite Hh, Hh3. split; [done|].
  unfold Py.last_n. by rewrite length_app.
Qed.

Lemma both_operations_record_the_same_witness :
  history_of (snd (async_for env_ok 5 (stream_response "hi" "s1") empty_world)) "s1"
  = history_of (snd (get_response env_ok "hi" "s1" empty_world)) "s1"
  /\ history_of (snd (get_response env_ok "hi" "s1" empty_world)) "s1"
     = drop (length (history_of empty_world "s1") + 1 - 10)
         (history_of empty_world "s1"
          ++ [mkExchange "hi" "Hello world test"
                (now_isoformat env_ok (S (ticks empty_world)))]).
Proof.
  apply (both_operations_record_the_same env_ok empty_world "hi" "s1"
           "Hello world test" 5).
  - reflexivity.
  - reflexivity.
  - vm_compute. lia.
Defined.

(** ** Retrieval, read directly *)

(** X13: the debug route never raises and changes nothing; it returns the
    texts and the labels of the retrieved documents, one label for each
    text in the same order, with the number of texts as count, and empty
    lists with count 0 when there is no vector store or the retriever
    raises. *)
Theorem debug_context_reads_only E query w :
  exists texts labels,
    debug_context E query w = (Ok (texts, labels, length texts), w)
    /\ length labels = length texts
    /\ (texts, labels)
       = match retriever E with
         | None => ([], [])
         | Some get_relevant_documents =>
             match get_relevant_documents query with
             | Ok docs => (map page_content docs, map source_info docs)
             | Raise _ => ([], [])
             end
         end.
Proof.
  exists (fst (retrieved E query)), (snd (retrieved E query)).
  split; [|split].
  - unfold debug_context. erewrite bind_ok by apply get_context_documents_spec.
    by destruct (retrieved E query).
  - unfold retrieved. destruct (retriever E) as [f|]; [|done].
    destruct (f query); [|done]. simpl. by rewrite !length_map.
  - unfold retrieved. destruct (retriever E) as [f|]; [|done].
    by destruct (f query).
Qed.

(** ** Ingestion *)

Lemma tag_splits_spec E collection splits :
  forall w, exists w',
    tag_splits E collection splits w
    = (Ok (tagged E collection (ticks w) splits), w')
    /\ batches_added w' = batches_added w
    /\ paths_loaded w' = paths_loaded w.
Proof.
  induction splits as [|split rest IH]; intros w; [by exists w|].
  destruct (IH (tick w)) as (w' & Hrest & Hb & Hp).
  exists w'. cbn [tag_splits tagged]. unfold bind, read_now.
  rewrite Hrest. by split.
Qed.

Lemma add_batches_spec E bs :
  forall w, exists r w',
    add_batches E bs w = (r, w')
    /\ batches_added w' = batches_added w ++ attempted E bs
    /\ match r with Ok _ => all_added E bs = true | Raise _ => all_added E bs = false end.
Proof.
  induction bs as [|batch rest IH]; intros w.
  - exists (Ok tt), w. simpl. by rewrite app_nil_r.
  - cbn [add_batches attempted all_added forallb]. unfold bind, add_documents.
    destruct (vectorstore_add_documents E batch) as [[]|e].
    + destruct (IH (log_batch batch w)) as (r & w' & Hrun & Hb & Hr).
      exists r, w'. rewrite Hrun. split; [done|]. split; [|done].
      rewrite Hb. simpl. by rewrite <- app_assoc.
    + eexists _, _. split; [reflexivity|]. by split.
Qed.

Lemma add_documents_async_spec E path collection w :
  let kind := if Py.endswith path ".pdf" then PyPDFLoader else DirectoryLoader in
  exists (success : bool) w',
    add_documents_async E path collection w = (Ok success, w')
    /\ success
       = match loader_load E kind path with
         | Ok documents =>
             all_added E
               (Py.batches 50
                  (tagged E collection (ticks w) (split_documents E documents)))
             && persist_accepted E
         | Raise _ => false
         end
    /\ batches_added w'
       = batches_added w
         ++ match loader_load E kind path with
            | Ok documents =>
                attempted E
                  (Py.batches 50
                     (tagged E collection (ticks w) (split_documents E documents)))
            | Raise _ => []
            end.
Proof.
  intros kind. unfold add_documents_async, try_except. fold kind.
  unfold bind at 1. unfold load at 1.
  destruct (loader_load E kind path) as [documents|e].
  - destruct (tag_splits_spec E collection (split_documents E documents)
                (log_load kind path w)) as (w1 & Htag & Hb1 & _).
    change (ticks (log_load kind path w)) with (ticks w) in Htag.
    unfold bind at 1. rewrite Htag.
    set (bs := Py.batches 50 _).
    destruct (add_batches_spec E bs w1) as (r & w2 & Hadd & Hb2 & Hr).
    unfold bind at 1. rewrite Hadd.
    destruct r as [[]|e].
    + rewrite Hr. unfold bind, persist_if_supported, persist_accepted, ret.
      destruct (vectorstore_persist E) as [[]|[msg|key|msg]];
        eexists _, _; (split; [reflexivity|]); (split; [reflexivity|]);
        simpl; by rewrite Hb2, Hb1.
    + rewrite Hr. eexists _, _. split; [reflexivity|]. split; [reflexivity|].
      simpl. by rewrite Hb2, Hb1.
  - eexists _, _. split; [reflexivity|]. split; [reflexivity|].
    simpl. by rewrite app_nil_r.
Qed.

(** X14: [add_documents_async] never raises.  It returns [True] exactly
    when the loader returned, the vector store took every batch, and
    [persist] returned or is missing; in every other case it returns
    [False].  The batches it handed over before a failure stay handed over:
    nothing is undone. *)
Theorem add_documents_async_result E path collection w :
  let kind := if Py.endswith path ".pdf" then PyPDFLoader else DirectoryLoader in
  exists (success : bool) w',
    add_documents_async E path collection w = (Ok success, w')
    /\ success
       = match loader_load E kind path with
         | Ok documents =>
             all_added E
               (Py.batches 50
                  (tagged E collection (ticks w) (split_documents E documents)))
             && persist_accepted E
         | Raise _ => false
         end
    /\ batches_added w'
       = batches_added w
         ++ match loader_load E kind path with
            | Ok documents =>
                attempted E
                  (Py.batches 50
                     (tagged E collection (ticks w) (split_documents E documents)))
            | Raise _ => []
            end.
Proof. apply add_documents_async_spec. Qed.

Lemma batches_fuel_spec {A} n :
  0 < n ->
  forall fuel (l : list A),
    length l <= fuel ->
    concat (Py.batches_fuel fuel n l) = l
    /\ Forall (fun batch => 1 <= length batch <= n) (Py.batches_fuel fuel n l).
Proof.
  intros Hn. induction fuel as [|fuel IH]; intros l Hl.
  - destruct l; [by split|simpl in Hl; lia].
  - destruct l as [|x l]; [by split|].
    cbn [Py.batches_fuel].
    destruct (IH (drop n (x :: l))) as [Hcat Hall].
    { rewrite length_drop. simpl in *. lia. }
    split.
    + cbn [concat]. rewrite Hcat. apply take_drop.
    + constructor; [|done]. rewrite length_take. simpl. lia.
Qed.

(** The batches are the list cut in order into pieces of at most [n]
    items, none of them empty. *)
Lemma batches_spec {A} n (l : list A) :
  0 < n ->
  concat (Py.batches n l) = l
  /\ Forall (fun batch => 1 <= length batch <= n) (Py.batches n l).
Proof. intros Hn. by apply batches_fuel_spec. Qed.

Lemma tagged_spec E collection splits :
  forall t,
    map page_content (tagged E collection t splits) = map page_content splits
    /\ Forall (fun chunk =>
                 metadata chunk !! "collection" = Some (MStr collection)
                 /\ exists stamp, metadata chunk !! "timestamp" = Some (MStr stamp))
              (tagged E collection t splits).
Proof.
  induction splits as [|piece rest IH]; intros t; [by split|].
  destruct (IH (S t)) as [Hmap Hall]. cbn [tagged map]. split.
  - by rewrite Hmap.
  - constructor; [|done]. simpl. split.
    + rewrite lookup_insert_ne by done. apply lookup_insert_eq.
    + eexists. apply lookup_insert_eq.
Qed.

Lemma attempted_all E bs : all_added E bs = true -> attempted E bs = bs.
Proof.
  induction bs as [|batch rest IH]; [done|].
  cbn [all_added forallb attempted].
  destruct (vectorstore_add_documents E batch); [|done].
  intros H. by rewrite IH.
Qed.

(** X15: when an ingestion succeeds, the vector store has been handed the
    chunks of the splitter, all of them, once and in order, in batches of 1
    to 50 chunks; every chunk carries the collection label the call was
    given and a timestamp, and its text is the splitter's. *)
Theorem ingestion_hands_over_every_chunk E path collection w documents :
  loader_load E (if Py.endswith path ".pdf" then PyPDFLoader else DirectoryLoader)
    path = Ok documents ->
  fst (add_documents_async E path collection w) = Ok true ->
  exists bs,
    batches_added (snd (add_documents_async E path collection w))
    = batches_added w ++ bs
    /\ Forall (fun batch => 1 <= length batch <= 50) bs
    /\ map page_content (concat bs)
       = map page_content (split_documents E documents)
    /\ Forall (fun chunk =>
                 metadata chunk !! "collection" = Some (MStr collection)
                 /\ exists stamp, metadata chunk !! "timestamp" = Some (MStr stamp))
              (concat bs).
Proof.
  intros Hload Hok.
  destruct (add_documents_async_spec E path collection w)
    as (success & w' & Hrun & Hs & Hb).
  rewrite Hrun in Hok |- *. cbn [fst snd] in *. injection Hok as ->.
  rewrite Hload in Hs, Hb. symmetry in Hs.
  apply andb_true_iff in Hs as [Hall _].
  rewrite (attempted_all _ _ Hall) in Hb.
  eexists. split; [exact Hb|].
  destruct (batches_spec 50
              (tagged E collection (ticks w) (split_documents E documents))
              ltac:(lia)) as [Hcat Hsize].
  destruct (tagged_spec E collection (split_documents E documents) (ticks w))
    as [Hmap Htags].
  split; [exact Hsize|]. rewrite Hcat. by split.
Qed.

Lemma ingestion_hands_over_every_chunk_witness :
  exists bs,
    batches_added (snd (add_documents_async env_ok "kb.pdf" "hr" empty_world))
    = batches_added empty_world ++ bs
    /\ Forall (fun batch => 1 <= length batch <= 50) bs
    /\ map page_content (concat bs)
       = map page_content (split_documents env_ok [sample_document])
    /\ Forall (fun chunk =>
                 metadata chunk !! "collection" = Some (MStr "hr")
                 /\ exists stamp, metadata chunk !! "timestamp" = Some (MStr stamp))
              (concat bs).
Proof.
  apply (ingestion_hands_over_every_chunk env_ok "kb.pdf" "hr" empty_world
           [sample_document]).
  - reflexivity.
  - reflexivity.
Defined.

(** X16: a document from which the splitter gets no chunk is ingested with
    success: the vector store is handed nothing and the result is [True]
    (unless [persist] raises something else than a missing attribute). *)
Theorem empty_document_is_a_success E path collection w documents :
  loader_load E (if Py.endswith path ".pdf" then PyPDFLoader else DirectoryLoader)
    path = Ok documents ->
  split_documents E documents = [] ->
  persist_accepted E = true ->
  exists w',
    add_documents_async E path collection w = (Ok true, w')
    /\ batches_added w' = batches_added w.
Proof.
  intros Hload Hsplit Hpersist.
  destruct (add_documents_async_spec E path collection w)
    as (success & w' & Hrun & Hs & Hb).
  rewrite Hload, Hsplit, Hpersist in Hs. rewrite Hload, Hsplit in Hb.
  simpl in Hs, Hb. rewrite app_nil_r in Hb. subst success.
  by exists w'.
Qed.

Lemma empty_document_is_a_success_witness :
  exists w',
    add_documents_async env_no_text "kb.pdf" "hr" empty_world = (Ok true, w')
    /\ batches_added w' = batches_added empty_world.
Proof.
  apply (empty_document_is_a_success env_no_text "kb.pdf" "hr" empty_world
           [sample_document]); reflexivity.
Defined.

(** X17: the upload route answers with its success message exactly when
    the loader returned for the path written in the code, the vector store
    took every batch and [persist] returned or is missing; every failure,
    whatever its cause, becomes the same error with the detail
    ["Failed to add documents."].  The request contributes its collection
    label only. *)
Theorem upload_document_result E request w :
  exists w',
    upload_document E request w
    = (match loader_load E PyPDFLoader upload_path with
       | Ok documents =>
           if all_added E
                (Py.batches 50
                   (tagged E (collection_name request) (ticks w)
                      (split_documents E documents)))
              && persist_accepted E
           then Ok "Documents added successfully."
           else Raise (OtherError "Failed to add documents.")
       | Raise _ => Raise (OtherError "Failed to add documents.")
       end, w').
Proof.
  destruct (add_documents_async_spec E upload_path (collection_name request) w)
    as (success & w' & Hrun & Hs & _).
  change (Py.endswith upload_path ".pdf") with true in Hs.
  exists w'. unfold upload_document. erewrite bind_ok by apply Hrun.
  destruct (loader_load E PyPDFLoader upload_path) as [documents|e].
  - rewrite <- Hs. by destruct success.
  - by rewrite Hs.
Qed.

(** ** The knowledge-base loader *)

Lemma first_existing_spec path_exists paths :
  match first_existing path_exists paths with
  | Some path =>
      path_exists path = true
      /\ exists before after,
           paths = before ++ path :: after
           /\ Forall (fun p => path_exists p = false) before
  | None => Forall (fun p => path_exists p = false) paths
  end.
Proof.
  induction paths as [|p rest IH]; cbn [first_existing]; [constructor|].
  destruct (path_exists p) eqn:Hp.
  - split; [done|]. by exists [], rest.
  - destruct (first_existing path_exists rest) as [path|].
    + destruct IH as (Hpath & before & after & -> & Hbefore).
      split; [done|]. exists (p :: before), after. split; [done|by constructor].
    + by constructor.
Qed.

(** X18: the knowledge-base loader never raises.  It ingests, under the
    label ["cogent_sales"], the first of its four candidate paths that
    exists, and returns what the ingestion returns; when none exists it
    returns [False] and asks the loader for nothing. *)
Theorem load_knowledge_base_takes_first_existing E path_exists w :
  exists (result : bool) w',
    load_knowledge_base E path_exists w = (Ok result, w')
    /\ match first_existing path_exists pdf_files with
       | Some path =>
           add_documents_async E path "cogent_sales" w = (Ok result, w')
           /\ paths_loaded w' = paths_loaded w ++ [(PyPDFLoader, path)]
           /\ path_exists path = true
           /\ exists before after,
                pdf_files = before ++ path :: after
                /\ Forall (fun p => path_exists p = false) before
       | None =>
           result = false /\ w' = w
           /\ Forall (fun p => path_exists p = false) pdf_files
       end.
Proof.
  pose proof (first_existing_spec path_exists pdf_files) as Hfirst.
  unfold load_knowledge_base.
  destruct (first_existing path_exists pdf_files) as [path|] eqn:Hfound.
  - destruct Hfirst as (Hpath & before & after & Hsplit & Hbefore).
    destruct (add_documents_async_spec E path "cogent_sales" w)
      as (success & w' & Hrun & _).
    exists success, w'. unfold try_except. erewrite bind_ok by apply Hrun.
    split; [by destruct success|]. split; [done|].
    split; [|split; [done|by exists before, after]].
    pose proof (add_documents_async_loads_given_path E path "cogent_sales" w) as Hp.
    rewrite Hrun in Hp. cbn [snd] in Hp. rewrite Hp.
    assert (Hpdf : Forall (fun p => Py.endswith p ".pdf" = true) pdf_files)
      by (repeat constructor).
    rewrite Hsplit in Hpdf.
    apply Forall_app in Hpdf as [_ [-> _]%Forall_cons]. done.
  - exists false, w. by repeat split.
Qed.

(** ** Accounts and the chat log *)

Lemma insert_user_refused Sq name mail pass db :
  insert_user Sq name mail pass db = None
  <-> exists row,
        In row (users db)
        /\ (users_username row = name \/ users_email row = mail).
Proof.
  unfold insert_user.
  destruct (existsb _ (users db)) eqn:Hex.
  - split; [intros _|done].
    apply existsb_exists in Hex as (row & Hin & Hrow).
    exists row. split; [done|].
    apply orb_true_iff in Hrow as [H|H]; apply String.eqb_eq in H; auto.
  - split; [done|]. intros (row & Hin & Hrow). exfalso.
    assert (Hex' : existsb (fun row => String.eqb (users_username row) name
                                       || String.eqb (users_email row) mail)
                     (users db) = true).
    { apply existsb_exists. exists row. split; [done|].
      apply orb_true_iff. destruct Hrow as [<-|<-];
        [left|right]; apply String.eqb_refl. }
    congruence.
Qed.

Lemma users_named_spec id db row :
  In row (users_named id db) <-> In row (users db) /\ names_row id row.
Proof.
  unfold users_named, names_row. rewrite filter_In, orb_true_iff.
  by rewrite !String.eqb_eq.
Qed.

Lemma fetchone_spec Sq rows :
  match fetchone Sq rows with
  | Some row => In row rows
  | None => rows = []
  end.
Proof.
  unfold fetchone. destruct rows as [|row rest]; [done|].
  apply nth_In. apply Nat.mod_upper_bound. done.
Qed.

Lemma fetchone_single Sq row : fetchone Sq [row] = Some row.
Proof. unfold fetchone. by destruct (first_of Sq [row] mod length [row]) as [|[|n]]. Qed.

Lemma signup_user_spec Sq request db :
  let name := SignupRequest.username request in
  let mail := SignupRequest.email request in
  ((exists row,
      In row (users db)
      /\ (users_username row = name \/ users_email row = mail))
   /\ signup_user Sq request db
      = (Json 400 [("error", "Username or email already exists.")], db))
  \/ ((forall row,
         In row (users db) ->
         users_username row <> name /\ users_email row <> mail)
      /\ exists db',
           signup_user Sq request db
           = (Json 200 [("message", "User registered successfully.")], db')
           /\ users db'
              = users db
                ++ [mkUserRow (1 + users_seq db) name mail
                      (SignupRequest.password request)
                      (current_timestamp Sq (rows_written db))]
           /\ chat_history db' = chat_history db).
Proof.
  intros name mail. unfold signup_user. fold name mail.
  destruct (insert_user Sq name mail (SignupRequest.password request) db)
    as [db'|] eqn:Hins.
  - right. split.
    + intros row Hin.
      split; intros Heq;
        assert (Hnone : insert_user Sq name mail
                          (SignupRequest.password request) db = None)
          by (apply (proj2 (insert_user_refused _ _ _ _ _)); exists row; auto);
        congruence.
    + exists db'. split; [done|]. unfold insert_user in Hins.
      destruct (existsb _ (users db)); [done|]. by injection Hins as <-.
  - left. split; [exact (proj1 (insert_user_refused _ _ _ _ _) Hins)|done].
Qed.

(** X19: a signup is refused, with status 400 and the database untouched,
    exactly when an account already has the username or already has the
    email; otherwise it adds one account that holds the request's username,
    email and password as given and a new id, and answers 200. *)
Theorem signup_user_result Sq request db :
  let name := SignupRequest.username request in
  let mail := SignupRequest.email request in
  ((exists row,
      In row (users db)
      /\ (users_username row = name \/ users_email row = mail))
   /\ signup_user Sq request db
      = (Json 400 [("error", "Username or email already exists.")], db))
  \/ ((forall row,
         In row (users db) ->
         users_username row <> name /\ users_email row <> mail)
      /\ exists db',
           signup_user Sq request db
           = (Json 200 [("message", "User registered successfully.")], db')
           /\ users db'
              = users db
                ++ [mkUserRow (1 + users_seq db) name mail
                      (SignupRequest.password request)
                      (current_timestamp Sq (rows_written db))]
           /\ chat_history db' = chat_history db).
Proof. apply signup_user_spec. Qed.

(** X20: a login is accepted only on behalf of a stored account whose
    username or email is the login id and whose stored password equals the
    request's password character for character; the answer then carries
    that account's username.  Every other login is answered 401. *)
Theorem login_user_result Sq request db :
  (exists row,
     In row (users db)
     /\ names_row (LoginRequest.login_id request) row
     /\ users_password row = LoginRequest.password request
     /\ login_user Sq request db
        = Json 200 [("message", "Login successful");
                    ("username", users_username row)])
  \/ login_user Sq request db
     = Json 401 [("error", "Invalid username/email or password.")].
Proof.
  unfold login_user.
  pose proof (fetchone_spec Sq (users_named (LoginRequest.login_id request) db))
    as Hfetch.
  destruct (fetchone Sq _) as [row|]; [|by right].
  apply users_named_spec in Hfetch as [Hin Hnames].
  destruct (String.eqb (users_password row) (LoginRequest.password request))
    eqn:Hpass; [|by right].
  left. exists row. apply String.eqb_eq in Hpass. by repeat split.
Qed.

Lemma users_named_new Sq name mail pass db db' id :
  insert_user Sq name mail pass db = Some db' ->
  (forall row, In row (users db) -> ~ names_row id row) ->
  names_row id (mkUserRow (1 + users_seq db) name mail pass
                  (current_timestamp Sq (rows_written db))) ->
  users_named id db'
  = [mkUserRow (1 + users_seq db) name mail pass
       (current_timestamp Sq (rows_written db))].
Proof.
  intros Hins Hold Hnew. unfold insert_user in Hins.
  destruct (existsb _ (users db)); [done|]. injection Hins as <-.
  unfold users_named. cbn [users]. rewrite List.filter_app.
  assert (Hnil : List.filter
                   (fun row => String.eqb (users_username row) id
                               || String.eqb (users_email row) id) (users db)
                 = []).
  { induction (users db) as [|row rest IH]; [done|]. cbn [List.filter].
    destruct (String.eqb (users_username row) id
              || String.eqb (users_email row) id) eqn:Hrow.
    - exfalso. apply (Hold row); [by left|].
      apply orb_true_iff in Hrow as [H|H]; apply String.eqb_eq in H;
        [by left|by right].
    - apply IH. intros row' Hin. apply Hold. by right. }
  rewrite Hnil. cbn [List.filter app].
  destruct Hnew as [H|H]; simpl in H; subst id.
  - by rewrite String.eqb_refl.
  - by rewrite String.eqb_refl, orb_true_r.
Qed.

(** X21: after a signup that succeeds, a login with the new username and
    the password is accepted and answers that username, provided no older
    account has that username as its email; likewise a login with the new
    email, provided no older account has that email as its username. *)
Theorem signup_then_login Sq Sq' request db :
  fst (signup_user Sq request db)
  = Json 200 [("message", "User registered successfully.")] ->
  (forall row,
     In row (users db) ->
     users_email row <> SignupRequest.username request
     /\ users_username row <> SignupRequest.email request) ->
  let db' := snd (signup_user Sq request db) in
  login_user Sq'
    (LoginRequest.mk (SignupRequest.username request)
       (SignupRequest.password request)) db'
  = Json 200 [("message", "Login successful");
              ("username", SignupRequest.username request)]
  /\ login_user Sq'
       (LoginRequest.mk (SignupRequest.email request)
          (SignupRequest.password request)) db'
     = Json 200 [("message", "Login successful");
                 ("username", SignupRequest.username request)].
Proof.
  intros Hok Hcross db'. subst db'.
  destruct (signup_user_spec Sq request db)
    as [[_ Hrefused]|[Hfree (db' & Hrun & _)]].
  { rewrite Hrefused in Hok. discriminate. }
  rewrite Hrun. cbn [snd]. unfold signup_user in Hrun.
  destruct (insert_user Sq _ _ _ db) as [db''|] eqn:Hins; [|done].
  injection Hrun as ->.
  split; unfold login_user; cbn [LoginRequest.login_id LoginRequest.password].
  - erewrite users_named_new; [| exact Hins | |by left].
    + rewrite fetchone_single. cbn [users_password users_username].
      by rewrite String.eqb_refl.
    + intros row Hin [H|H];
        [by destruct (Hfree row Hin)|by destruct (Hcross row Hin)].
  - erewrite users_named_new; [| exact Hins | |by right].
    + rewrite fetchone_single. cbn [users_password users_username].
      by rewrite String.eqb_refl.
    + intros row Hin [H|H];
        [by destruct (Hcross row Hin)|by destruct (Hfree row Hin)].
Qed.

Lemma signup_then_login_witness :
  let request := SignupRequest.mk "ann" "ann@example.com" "secret" in
  let db' := snd (signup_user sqlite_in_order request empty_database) in
  login_user sqlite_in_order (LoginRequest.mk "ann" "secret") db'
  = Json 200 [("message", "Login successful"); ("username", "ann")]
  /\ login_user sqlite_in_order (LoginRequest.mk "ann@example.com" "secret") db'
     = Json 200 [("message", "Login successful"); ("username", "ann")].
Proof.
  apply (signup_then_login sqlite_in_order sqlite_in_order
           (SignupRequest.mk "ann" "ann@example.com" "secret") empty_database).
  - reflexivity.
  - simpl. intros row [].
Defined.

Lemma chat_endpoint_spec E Sq request w db :
  let sid := QueryRequest.session_id request in
  let q := QueryRequest.query request in
  exists result w' db',
    chat_endpoint E Sq request w db = (Ok result, w', db')
    /\ get_response E q sid w = (Ok result, w')
    /\ users db' = users db
    /\ ((forall row, In row (users db) -> ~ names_row sid row) /\ db' = db
        \/ exists row,
             In row (users db)
             /\ names_row sid row
             /\ chat_history db'
                = chat_history db
                  ++ [mkChatRow (1 + chat_history_seq db) (users_id row) sid q
                        (response result)
                        (current_timestamp Sq (rows_written db))]).
Proof.
  intros sid q.
  destruct (get_response_returns E w q sid) as (result & w' & Hrun & _).
  unfold chat_endpoint. fold sid q. rewrite Hrun.
  pose proof (fetchone_spec Sq (users_named sid db)) as Hfetch.
  destruct (fetchone Sq (users_named sid db)) as [row|].
  - apply users_named_spec in Hfetch as [Hin Hnames].
    eexists _, _, _. split; [reflexivity|]. split; [done|]. split; [done|].
    right. by exists row.
  - eexists _, _, _. split; [reflexivity|]. split; [done|]. split; [done|].
    left. split; [|done]. intros row Hin Hnames.
    assert (Hrow : In row (users_named sid db)) by by apply users_named_spec.
    by rewrite Hfetch in Hrow.
Qed.

(** X22: when the [sqlite3] calls of the chat route return (the only case
    [chat_endpoint] describes; the route does not catch their errors), the
    route answers what [get_response] returns, which is never an exception.
    It writes one row to the chat log, with the query and the text it
    answers (the apology too, when the model call failed), exactly when the
    session id is the username or the email of an account; the row carries
    that account's id.  For any other session id the database is left as it
    was, while the turn is still recorded in memory. *)
Theorem chat_endpoint_logs_known_accounts E Sq request w db :
  let sid := QueryRequest.session_id request in
  let q := QueryRequest.query request in
  exists result w' db',
    chat_endpoint E Sq request w db = (Ok result, w', db')
    /\ get_response E q sid w = (Ok result, w')
    /\ users db' = users db
    /\ ((forall row, In row (users db) -> ~ names_row sid row) /\ db' = db
        \/ exists row,
             In row (users db)
             /\ names_row sid row
             /\ chat_history db'
                = chat_history db
                  ++ [mkChatRow (1 + chat_history_seq db) (users_id row) sid q
                        (response result)
                        (current_timestamp Sq (rows_written db))]).
Proof. apply chat_endpoint_spec. Qed.

Lemma signup_user_ok Sq request db :
  database_ok db -> database_ok (snd (signup_user Sq request db)).
Proof.
  intros (Hnames & Hmails & Hids & Hseq & Hchat).
  destruct (signup_user_spec Sq request db)
    as [[_ ->]|[Hfree (db' & Hrun & Husers & Hlog)]]; [done|].
  rewrite Hrun. cbn [snd].
  assert (Hseq' : users_seq db' = 1 + users_seq db).
  { unfold signup_user in Hrun.
    destruct (insert_user Sq _ _ _ db) as [db''|] eqn:Hins; [|done].
    injection Hrun as ->. unfold insert_user in Hins.
    destruct (existsb _ (users db)); [done|]. by injection Hins as <-. }
  unfold database_ok. rewrite Husers, Hlog, Hseq', !map_app. cbn [map].
  split; [|split; [|split; [|split]]].
  - apply NoDup_app. split; [done|]. split; [|apply NoDup_singleton].
    intros name Hin Hnew. apply list_elem_of_singleton in Hnew. subst name.
    apply list_elem_of_In, in_map_iff in Hin as (row & Heq & Hin).
    by destruct (Hfree row Hin).
  - apply NoDup_app. split; [done|]. split; [|apply NoDup_singleton].
    intros mail Hin Hnew. apply list_elem_of_singleton in Hnew. subst mail.
    apply list_elem_of_In, in_map_iff in Hin as (row & Heq & Hin).
    by destruct (Hfree row Hin).
  - apply NoDup_app. split; [done|]. split; [|apply NoDup_singleton].
    intros id Hin Hnew. apply list_elem_of_singleton in Hnew. subst id.
    apply list_elem_of_In, in_map_iff in Hin as (row & Heq & Hin).
    rewrite Forall_forall in Hseq.
    assert (users_id row <= users_seq db) by (apply Hseq; by apply list_elem_of_In).
    simpl in Heq. lia.
  - apply Forall_app. split.
    + eapply Forall_impl; [exact Hseq|]. intros row Hrow. simpl in *. lia.
    + constructor; [simpl; lia|constructor].
  - eapply Forall_impl; [exact Hchat|].
    intros chat (row & Hin & Hid & Hnamed). exists row.
    split; [apply in_or_app; by left|done].
Qed.

Lemma chat_endpoint_ok E Sq request w db :
  database_ok db ->
  database_ok (snd (chat_endpoint E Sq request w db)).
Proof.
  intros Hok.
  destruct (chat_endpoint_spec E Sq request w db)
    as (result & w' & db' & Hrun & _ & Husers & Hcase).
  rewrite Hrun. cbn [snd].
  destruct Hcase as [[_ ->]|(row & Hin & Hnamed & Hlog)]; [done|].
  destruct Hok as (Hnames & Hmails & Hids & Hseq & Hchat).
  assert (Hseq' : users_seq db' = users_seq db).
  { unfold chat_endpoint in Hrun.
    destruct (get_response E _ _ w) as [[r|e] w0]; [|done].
    injection Hrun as _ _ <-.
    by destruct (fetchone Sq _). }
  unfold database_ok. rewrite Husers, Hlog, Hseq'.
  repeat (split; [done|]).
  apply Forall_app. split; [done|].
  constructor; [|constructor]. by exists row.
Qed.

Lemma visits_ok vs :
  forall state, database_ok (snd state) -> database_ok (snd (visits vs state)).
Proof.
  unfold visits. induction vs as [|v vs IH]; intros state Hok; [done|].
  cbn [foldl]. apply IH. destruct v as [Sq request|Sq request|E Sq request];
    cbn [visit snd].
  - by apply signup_user_ok.
  - done.
  - pose proof (chat_endpoint_ok E Sq request (fst state) (snd state) Hok) as H.
    by destruct (chat_endpoint E Sq request (fst state) (snd state)) as [[r w'] db'].
Qed.

(** X23: from an empty database, after any sequence of signups, logins and
    chat requests, no two accounts share a username, an email or an id, and
    every row of the chat log carries the id of an existing account whose
    username or email is the row's session id. *)
Theorem accounts_and_chat_log_stay_consistent (vs : list Visit) (w : World) :
  let db := snd (visits vs (w, empty_database)) in
  NoDup (map users_username (users db))
  /\ NoDup (map users_email (users db))
  /\ NoDup (map users_id (users db))
  /\ Forall (fun chat =>
               exists row,
                 In row (users db)
                 /\ users_id row = chat_history_user_id chat
                 /\ names_row (chat_history_session_id chat) row)
            (chat_history db).
Proof.
  destruct (visits_ok vs (w, empty_database)) as (H1 & H2 & H3 & _ & H5).
  { unfold database_ok. simpl. repeat split; constructor. }
  by repeat split.
Qed.
